(** * WICCON social battery SAO firmware: a model of [main.c]

    The firmware of [social_battery_firmware/main.c] is embedded as Rocq
    functions over [Z]: an 8, 16 or 32 bit C integer is a [Z] whose
    wrap-around is written out where the C code stores it, a C array is a
    list read with stdpp's lookup and written with stdpp's insert, and the
    pin activity of the bit-banged LED protocol is a list of events. *)

From Stdlib Require Import ZArith List Bool Lia.
From stdpp Require Import base option list relations.
Import ListNotations.

Local Open Scope Z_scope.

(** ** Machine integers *)

Module Int.

Definition u8 (x : Z) : Z := x mod 256.
Definition u16 (x : Z) : Z := x mod 65536.
Definition u32 (x : Z) : Z := x mod 4294967296.

(** Conversion of a 32-bit pattern to [int32_t] (two's complement). *)
Definition s32 (x : Z) : Z :=
  let m := u32 x in if m <? 2147483648 then m else m - 4294967296.

Definition is_u8 (x : Z) : Prop := 0 <= x <= 255.

End Int.

Import Int.

(** ** Arrays

    [get] reads a cell of a C array that the code indexes inside its bounds
    (the bounds are proved where a property depends on them); [load] is the
    checked read used where a pointer walks over an array: it has no value
    outside the array. Stores use stdpp's [<[i:=x]>], which leaves the list
    alone outside its bounds. *)

Definition get (a : list Z) (i : Z) : Z := default 0 (a !! Z.to_nat i).

Definition set (a : list Z) (i : Z) (v : Z) : list Z := <[Z.to_nat i := v]> a.

Definition load (a : list Z) (i : Z) : option Z :=
  if (0 <=? i) && (i <? Z.of_nat (length a)) then a !! Z.to_nat i else None.

(** ** I2C register map (the [I2C_REG_*] macros) *)

Definition FW_VERSION : Z := 1.
Definition I2C_ADDR_EEPROM : Z := 80.
Definition I2C_ADDR_CONTROL : Z := 87.

Definition I2C_REG_FW_VERSION_0 : Z := 0.
Definition I2C_REG_FW_VERSION_1 : Z := 1.
Definition I2C_REG_GPIO_MODE : Z := 2.
Definition I2C_REG_GPIO_INPUTS : Z := 3.
Definition I2C_REG_GPIO_OUTPUTS : Z := 4.
Definition I2C_REG_MODE : Z := 5.
Definition I2C_REG_TOUCH0_0 : Z := 6.
Definition I2C_REG_SOCIAL_LEVEL : Z := 16.
Definition I2C_REG_RAINBOW_SPEED : Z := 17.
Definition I2C_REG_KNIGHTRIDER_SPEED : Z := 18.
Definition I2C_REG_BUTTON : Z := 19.
Definition I2C_REG_BUTTON_ENABLED : Z := 20.
Definition I2C_REG_ADDR_LED0_GREEN : Z := 21.
Definition I2C_REG_ADDR_LED4_BLUE : Z := 35.

(** [volatile uint8_t i2c_registers[35]] and [led_effect_data[15]]. *)
Definition I2C_REGISTERS_SIZE : nat := 35.
Definition LED_EFFECT_DATA_SIZE : nat := 15.

Definition eeprom_registers_size : Z := 43.

(** ** Events on the pins and peripherals *)

Inductive pin := PIN_SDA | PIN_SCL | PIN_MODE | PIN_BUTTON | PIN_LED
               | PIN_IO1 | PIN_IO2 | PIN_E1 | PIN_E2.

Inductive pincfg := IN_PUPD | OUT_10Mhz_PP | OUT_10Mhz_AF_OD.

Inductive event :=
| IrqDisable                    (* I2C1->CTLR2 &= ~I2C_CTLR2_ITEVTEN *)
| IrqEnable                     (* I2C1->CTLR2 |= I2C_CTLR2_ITEVTEN *)
| Nop                           (* __asm__("nop") *)
| LedHigh                       (* GPIOC->BSHR |= 1 << 6 *)
| LedLow                        (* GPIOC->BSHR |= 1 << (6 + 16) *)
| PinMode (p : pin) (c : pincfg)
| DigitalWrite (p : pin) (v : bool)
| SetupI2CSlave (addr size : Z) (read_only : bool)
| SetupSecondaryI2CSlave (addr size : Z) (read_only : bool)
| Delay_Ms (ms : Z).

(** ** Addressable LEDs: [write_addressable_leds] *)

Module Leds.

(** Number of [nop]s executed while the LED pin is high: 36 in the
    "Send 1" branch, 14 in the "Send 0" branch. *)
Definition T1H : nat := 36.
Definition T0H : nat := 14.

Definition send_one : list event :=
  [Nop; Nop; LedHigh] ++ repeat Nop T1H ++ [LedLow].

Definition send_zero : list event :=
  [LedHigh] ++ repeat Nop T0H ++ [LedLow] ++ repeat Nop 20.

(** [(data[pos_byte] >> i) & 1] *)
Definition bit_set (b i : Z) : bool := negb (Z.land (Z.shiftr b i) 1 =? 0).

Definition send_bit (b i : Z) : list event :=
  if bit_set b i then send_one else send_zero.

(** [for (int i = 7; i >= 0; i--)]: [send_bits b n] runs i = n-1 .. 0. *)
Fixpoint send_bits (b : Z) (n : nat) : list event :=
  match n with
  | O => []
  | S i => send_bit b (Z.of_nat i) ++ send_bits b i
  end.

(** [for (pos_byte = 0; pos_byte < length; pos_byte++)] with [count]
    iterations left; [data] points at cell [base] of the array [mem]. *)
Fixpoint send_bytes (mem : list Z) (base pos_byte : Z) (count : nat)
  : option (list event) :=
  match count with
  | O => Some []
  | S k =>
      b ← load mem (base + pos_byte);
      rest ← send_bytes mem base (pos_byte + 1) k;
      Some (send_bits b 8 ++ rest)
  end.

(** [write_addressable_leds(&mem[base], length)]; [length] is a
    [uint8_t]. [None] when the walk leaves the array. *)
Definition write_addressable_leds (mem : list Z) (base : Z) (length : Z)
  : option (list event) :=
  body ← send_bytes mem base 0 (Z.to_nat (u8 length));
  Some ([IrqDisable] ++ body ++ [IrqEnable]).

(** *** Reading the wire

    The LED chipset sees one pulse per bit and tells the bit from the time
    the line stays high. [high_durations] measures that time in [nop]s. *)

Fixpoint high_durations (cur : option nat) (tr : list event) : list nat :=
  match tr with
  | [] => []
  | LedHigh :: tr' => high_durations (Some O) tr'
  | Nop :: tr' => high_durations (S <$> cur) tr'
  | LedLow :: tr' =>
      match cur with
      | Some n => n :: high_durations None tr'
      | None => high_durations None tr'
      end
  | _ :: tr' => high_durations cur tr'
  end.

(** A pulse longer than the short one is a 1. *)
Definition pulse_bit (d : nat) : bool := Nat.ltb T0H d.

Fixpoint byte_of_bits (acc : Z) (bs : list bool) : Z :=
  match bs with
  | [] => acc
  | b :: bs' => byte_of_bits (2 * acc + Z.b2z b) bs'
  end.

(** Bytes as the chipset shifts them in: eight pulses each, first pulse
    the most significant bit. *)
Fixpoint bytes_of_bits (fuel : nat) (bs : list bool) : list Z :=
  match fuel, bs with
  | S f, _ :: _ => byte_of_bits 0 (firstn 8 bs) :: bytes_of_bits f (skipn 8 bs)
  | _, _ => []
  end.

Definition wire_bits (tr : list event) : list bool :=
  map pulse_bit (high_durations None tr).

Definition wire_bytes (tr : list event) : list Z :=
  let bs := wire_bits tr in bytes_of_bits (length bs) bs.

(** The bits of a byte, most significant first. *)
Definition msb_first (b : Z) : list bool :=
  map (fun i => Z.testbit b (Z.of_nat i)) [7; 6; 5; 4; 3; 2; 1; 0]%nat.

End Leds.

(** ** Firmware state: the globals of [main.c] and the locals of [main]
    that live across iterations of its loop *)

Record state := mkState {
  i2c_registers : list Z;          (* volatile uint8_t [35] *)
  led_effect_data : list Z;        (* volatile uint8_t [15] *)
  social_level : Z;                (* uint8_t *)
  system_mode : Z;                 (* uint8_t *)
  button_enabled : bool;
  rainbow_speed : Z;               (* uint8_t *)
  knightrider_speed : Z;           (* uint8_t *)
  knightrider_led : Z;             (* uint8_t *)
  knightrider_value : Z;           (* uint16_t *)
  knightrider_direction : bool;
  hue : Z;                         (* uint8_t, local of main *)
  baseline : list Z;               (* uint32_t [5], local of main *)
  prev_button : bool               (* local of main *)
}.

(** [for (uint8_t i = start; ...; i++)] with [count] iterations. *)
Fixpoint for_range {A : Type} (i : Z) (count : nat) (body : Z -> A -> A) (a : A) : A :=
  match count with
  | O => a
  | S k => for_range (i + 1) k body (body i a)
  end.

(** Consecutive stores [d[i] = v0; d[i+1] = v1; ...]. *)
Fixpoint assign_from (i : Z) (vals : list Z) (d : list Z) : list Z :=
  match vals with
  | [] => d
  | v :: vals' => assign_from (i + 1) vals' (set d i v)
  end.

(** ** The scanner: [knightrider_step] *)

Module Scanner.

(** First loop: every byte fades by 10, not below 0. *)
Definition decay (v : Z) : Z := if 10 <? v then u8 (v - 10) else 0.

Definition decay_all (d : list Z) : list Z :=
  for_range 0 15 (fun i d => set d i (decay (get d i))) d.

(** The head: [(led, value, direction)] after the second block. *)
Definition advance (speed led value : Z) (direction : bool) : Z * Z * bool :=
  if (255 - speed) <? value then
    if negb direction then
      let led' := u8 (led + 1) in
      (led', 0, if 4 <=? led' then true else direction)
    else
      let led' := u8 (led - 1) in
      (led', 0, if led' =? 0 then false else direction)
  else (led, u16 (value + 1), direction).

(** Last block: the head's channel gains 50. *)
Definition ramp (v : Z) : Z := if v <? 215 then u8 (v + 50) else 255.

Definition ramp_head (led color : Z) (d : list Z) : list Z :=
  let idx := led * 3 + color in set d idx (ramp (get d idx)).

Definition knightrider_step (color : Z) (s : state) : state :=
  let d1 := decay_all (led_effect_data s) in
  let '(led, value, direction) :=
    advance (knightrider_speed s) (knightrider_led s) (knightrider_value s)
            (knightrider_direction s) in
  mkState (i2c_registers s) (ramp_head led color d1)
          (social_level s) (system_mode s) (button_enabled s)
          (rainbow_speed s) (knightrider_speed s)
          led value direction
          (hue s) (baseline s) (prev_button s).

End Scanner.

(** ** The body of the main loop *)

(** What one iteration samples from the pins and the touch pads. *)
Record tick_input := mkInput {
  raw_touch_value : list Z;        (* read_touch: five uint32_t counts *)
  pin_button : bool;               (* funDigitalRead(PIN_BUTTON) *)
  pin_io1 : bool;
  pin_io2 : bool;
  pin_e1 : bool;
  pin_e2 : bool
}.

(** Instructions of the register refresh, one per memory access. *)
Inductive instr :=
| IrqOff                           (* CTLR2 &= ~ITEVTEN *)
| Store (idx v : Z)                (* i2c_registers[idx] = v *)
| IrqOn.                           (* CTLR2 |= ITEVTEN *)

Module Loop.

(** [touch_value[i] = raw_touch_value[i] - baseline[i]]: a [uint32_t]
    difference stored in an [int32_t]. *)
Definition touch_delta (raw base : list Z) (i : Z) : Z :=
  s32 (get raw i - get base i).

(** One iteration of the touch loop on [(touch_value, social_level)]. *)
Definition touch_step (raw base : list Z) (i : Z) (acc : list Z * Z) : list Z * Z :=
  let tv := touch_delta raw base i in
  (set (fst acc) i tv, if 1900 <? tv then u8 i else snd acc).

Definition touch_update (raw base : list Z) (level : Z) : list Z * Z :=
  for_range 0 5 (touch_step raw base) ([0; 0; 0; 0; 0], level).

(** [if (button && !prev_button && button_enabled) { system_mode++;
    if (system_mode > 7) system_mode = 1; }] *)
Definition button_update (button prev enabled : bool) (mode : Z) : Z :=
  if button && negb prev && enabled then
    let m := u8 (mode + 1) in
    if 7 <? m then 1 else m
  else mode.

Definition read_other_inputs (inp : tick_input) : Z :=
  Z.lor (Z.lor (Z.lor (Z.lor 0
    (Z.shiftl (Z.b2z (pin_io1 inp)) 0))
    (Z.shiftl (Z.b2z (pin_io2 inp)) 1))
    (Z.shiftl (Z.b2z (pin_e1 inp)) 2))
    (Z.shiftl (Z.b2z (pin_e2 inp)) 3).

(** [(button & 1) | ((prev_button & 1) << 1)] *)
Definition button_register (button prev : bool) : Z :=
  Z.lor (Z.land (Z.b2z button) 1) (Z.shiftl (Z.land (Z.b2z prev) 1) 1).

(** [*(uint16_t* )&i2c_registers[TOUCH0_0 + i * 2] = touch_value[i]]:
    the low half of the delta, little-endian, as two byte stores. *)
Definition store_touch (tv : list Z) (i : Z) : list instr :=
  let v := u16 (get tv i) in
  [Store (I2C_REG_TOUCH0_0 + i * 2) (u8 v);
   Store (I2C_REG_TOUCH0_0 + i * 2 + 1) (Z.shiftr v 8)].

(** The block between the two writes of ITEVTEN, in program order. [s] is
    the state when the block starts, [button] and [tv] the locals. *)
Definition publish_program (s : state) (inp : tick_input) (button : bool)
    (tv : list Z) : list instr :=
  [IrqOff;
   Store I2C_REG_FW_VERSION_0 (Z.land FW_VERSION 255);
   Store I2C_REG_FW_VERSION_1 (Z.land (Z.shiftr FW_VERSION 8) 255);
   Store I2C_REG_GPIO_INPUTS (read_other_inputs inp);
   Store I2C_REG_SOCIAL_LEVEL (social_level s);
   Store I2C_REG_RAINBOW_SPEED (rainbow_speed s);
   Store I2C_REG_KNIGHTRIDER_SPEED (knightrider_speed s);
   Store I2C_REG_BUTTON (button_register button (prev_button s));
   Store I2C_REG_BUTTON_ENABLED (Z.b2z (button_enabled s))]
  ++ for_range 0 5 (fun i p => p ++ store_touch tv i) []
  ++ [IrqOn].

Definition exec (i : instr) (m : list Z * bool) : list Z * bool :=
  match i with
  | IrqOff => (fst m, false)
  | Store idx v => (set (fst m) idx v, snd m)
  | IrqOn => (fst m, true)
  end.

Definition run (p : list instr) (m : list Z * bool) : list Z * bool :=
  fold_left (fun m i => exec i m) p m.

Definition publish_registers (s : state) (inp : tick_input) (button : bool)
    (tv : list Z) : list Z :=
  fst (run (publish_program s inp button tv) (i2c_registers s, true)).

Section Render.

(** [EHSVtoHEX] of [color_utilities.h]: hue, saturation and value to a
    packed colour; the header is not part of the firmware source, the
    function is a parameter of the renderer. *)
Variable EHSVtoHEX : Z -> Z -> Z -> Z.

Definition social_battery_led (level : Z) (tv : list Z) (i : Z) (d : list Z) : list Z :=
  let d1 :=
    if level <? i then set (set d (i * 3 + 0) 0) (i * 3 + 1) 0
    else set (set d (i * 3 + 0) (u8 (50 * level))) (i * 3 + 1) (u8 (255 - 50 * level)) in
  set d1 (i * 3 + 2) (if 2000 <? get tv i then 255 else 0).

Definition rainbow_led (h speed : Z) (led : Z) (d : list Z) : list Z :=
  let color := EHSVtoHEX (h + led * speed) 240 128 in
  set (set (set d (led * 3 + 0) (Z.land (Z.shiftr color 8) 255))
                  (led * 3 + 1) (Z.land (Z.shiftr color 16) 255))
                  (led * 3 + 2) (Z.land (Z.shiftr color 0) 255).

Definition with_leds (s : state) (d : list Z) (h : Z) : state :=
  mkState (i2c_registers s) d (social_level s) (system_mode s)
          (button_enabled s) (rainbow_speed s) (knightrider_speed s)
          (knightrider_led s) (knightrider_value s) (knightrider_direction s)
          h (baseline s) (prev_button s).

(** [switch (system_mode)], cases 1 to 7 (case 0 only transmits). *)
Definition render (tv : list Z) (s : state) : state :=
  let d := led_effect_data s in
  match system_mode s with
  | 1 => with_leds s (for_range 0 5 (social_battery_led (social_level s) tv) d) (hue s)
  | 2 => with_leds s (for_range 0 5 (rainbow_led (hue s) (rainbow_speed s)) d)
                   (u8 (hue s + 1))
  | 3 => with_leds s (assign_from 0 [0; 0; 255; 150; 255; 174; 255; 255; 255;
                                     150; 255; 174; 0; 0; 255] d) (hue s)
  | 4 => with_leds s (assign_from 0 [0; 255; 0; 0; 255; 0; 255; 255; 255;
                                     0; 0; 255; 0; 0; 255] d) (hue s)
  | 5 => Scanner.knightrider_step 1 s
  | 6 => Scanner.knightrider_step 0 s
  | 7 => Scanner.knightrider_step 2 s
  | _ => s
  end.

(** The two calls of [write_addressable_leds] in the loop: from the
    register file in case 0, from the effect buffer when
    [system_mode > 0]. *)
Definition transmit (s : state) : option (list event) :=
  t0 ← (if system_mode s =? 0
        then Leds.write_addressable_leds (i2c_registers s) I2C_REG_ADDR_LED0_GREEN 15
        else Some []);
  t1 ← (if 0 <? system_mode s
        then Leds.write_addressable_leds (led_effect_data s) 0 15
        else Some []);
  Some (t0 ++ t1).

(** State after the sensing and the register refresh of one iteration,
    with the local [touch_value]. *)
Definition sense (inp : tick_input) (s : state) : state * list Z :=
  let '(tv, level) := touch_update (raw_touch_value inp) (baseline s) (social_level s) in
  let button := negb (pin_button inp) in
  let mode := button_update button (prev_button s) (button_enabled s) (system_mode s) in
  let s1 := mkState (i2c_registers s) (led_effect_data s) level mode
                    (button_enabled s) (rainbow_speed s) (knightrider_speed s)
                    (knightrider_led s) (knightrider_value s)
                    (knightrider_direction s) (hue s) (baseline s)
                    button (* prev_button = button *) in
  let regs := publish_registers s1 inp button tv in
  (mkState regs (led_effect_data s1) (social_level s1) (system_mode s1)
           (button_enabled s1) (rainbow_speed s1) (knightrider_speed s1)
           (knightrider_led s1) (knightrider_value s1)
           (knightrider_direction s1) (hue s1) (baseline s1) (prev_button s1),
   tv).

(** One pass through the body of [while (1)] once the 20 ms period has
    elapsed:
    the next state and what goes out on the LED pin ([None] when the
    transmission reads outside its array). *)
Definition tick (inp : tick_input) (s : state) : state * option (list event) :=
  let '(s1, tv) := sense inp s in
  let s2 := render tv s1 in
  (s2, transmit s2).

End Render.

End Loop.

(** ** Start-up: [main] up to its loop *)

Module Boot.

(** The globals as their initialisers leave them. *)
Definition power_on : state :=
  mkState (repeat 0 I2C_REGISTERS_SIZE) (repeat 0 LED_EFFECT_DATA_SIZE)
          0 0 false 15 (255 - 10) 0 0 false 0 [0; 0; 0; 0; 0] false.

Definition pull_up (p : pin) : list event :=
  [PinMode p IN_PUPD; DigitalWrite p true].

Definition configure_pins : list event :=
  pull_up PIN_MODE ++ pull_up PIN_IO1 ++ pull_up PIN_IO2 ++ pull_up PIN_BUTTON
  ++ pull_up PIN_E1 ++ pull_up PIN_E2
  ++ [PinMode PIN_LED OUT_10Mhz_PP]
  ++ [PinMode PIN_SDA IN_PUPD; PinMode PIN_SCL IN_PUPD;
      DigitalWrite PIN_SDA false; DigitalWrite PIN_SCL false].

(** The [else] branch loop: [led_effect_data[i*3+0] = 0x00;
    [i*3+1] = 0xFF; [i*3+2] = 0x00]. *)
Definition fallback_led (i : Z) (d : list Z) : list Z :=
  set (set (set d (i * 3 + 0) 0) (i * 3 + 1) 255) (i * 3 + 2) 0.

(** [sda], [scl]: what [funDigitalRead] returns for the two bus lines once
    they are pulled down; [pin_mode]: the level of the mode jumper;
    [touch]: the five counts of the first [read_touch]. *)
Definition boot (sda scl pin_mode : bool) (touch : list Z)
  : option (state * list event) :=
  let s0 := power_on in
  '(d, bus) ←
    (if sda || scl then
       Some (led_effect_data s0,
             [PinMode PIN_SDA OUT_10Mhz_AF_OD; PinMode PIN_SCL OUT_10Mhz_AF_OD;
              SetupI2CSlave I2C_ADDR_CONTROL (Z.of_nat I2C_REGISTERS_SIZE) false;
              SetupSecondaryI2CSlave I2C_ADDR_EEPROM eeprom_registers_size true])
     else
       let d := for_range 0 5 fallback_led (led_effect_data s0) in
       tr ← Leds.write_addressable_leds d 0 15;
       Some (d, tr ++ [Delay_Ms 100]));
  (* !get_mode() is funDigitalRead(PIN_MODE) *)
  let standalone := pin_mode in
  Some (mkState (i2c_registers s0) d (social_level s0)
                (if standalone then 1 else system_mode s0)
                (if standalone then true else button_enabled s0)
                15 (knightrider_speed s0) (knightrider_led s0)
                (knightrider_value s0) (knightrider_direction s0)
                0 touch false,
        configure_pins ++ bus).

End Boot.

(** ** The bus side: [onWrite] and the peripheral that calls it *)

Module Bus.

Definition gpio_cfg (regs : list Z) (bit : Z) : pincfg :=
  if Z.land (get regs I2C_REG_GPIO_MODE) (Z.shiftl 1 bit) =? 0
  then IN_PUPD else OUT_10Mhz_PP.

Definition gpio_out (regs : list Z) (bit : Z) : bool :=
  negb (Z.land (get regs I2C_REG_GPIO_OUTPUTS) (Z.shiftl 1 bit) =? 0).

Definition onWrite (s : state) : state * list event :=
  let regs := i2c_registers s in
  (mkState regs (led_effect_data s)
           (get regs I2C_REG_SOCIAL_LEVEL)
           (get regs I2C_REG_MODE)
           (negb (get regs I2C_REG_BUTTON_ENABLED =? 0))
           (get regs I2C_REG_RAINBOW_SPEED)
           (get regs I2C_REG_KNIGHTRIDER_SPEED)
           (knightrider_led s) (knightrider_value s) (knightrider_direction s)
           (hue s) (baseline s) (prev_button s),
   [PinMode PIN_IO1 (gpio_cfg regs 0); PinMode PIN_IO2 (gpio_cfg regs 1);
    PinMode PIN_E1 (gpio_cfg regs 2); PinMode PIN_E2 (gpio_cfg regs 3);
    DigitalWrite PIN_IO1 (gpio_out regs 0); DigitalWrite PIN_IO2 (gpio_out regs 1);
    DigitalWrite PIN_E1 (gpio_out regs 2); DigitalWrite PIN_E2 (gpio_out regs 3)]).

(** Modelled from the spec: the bus peripheral of [i2c_slave.h], which is
    not part of the firmware source. A host write transaction names a first
    register and carries bytes for it and its successors; each byte is
    stored in the register file the peripheral was set up with
    ([i2c_registers], [sizeof] 35), a register index with no entry in that
    file stores nothing, and [onWrite] runs before the handler returns. *)
Definition host_write (reg : Z) (data : list Z) (s : state) : state :=
  let regs := assign_from reg (map u8 data) (i2c_registers s) in
  fst (onWrite
    (mkState regs (led_effect_data s) (social_level s) (system_mode s)
             (button_enabled s) (rainbow_speed s) (knightrider_speed s)
             (knightrider_led s) (knightrider_value s)
             (knightrider_direction s) (hue s) (baseline s) (prev_button s))).

End Bus.

(** ** The register refresh against the bus interrupt *)

Module Preempt.

(** The main loop inside its refresh block: the register file, the
    ITEVTEN bit and the instructions still to run. *)
Record machine := mkMachine {
  m_regs : list Z;
  m_itevten : bool;
  m_todo : list instr
}.

Section Steps.

(** What one run of the bus-event handler may do to the register file. *)
Variable handler : list Z -> list Z -> Prop.

(** Modelled from the spec: the interrupt context of section 5, whose
    handler lives in [i2c_slave.h] outside the firmware source. The
    handler may run between any two instructions of the main loop while
    ITEVTEN is set, and not while it is clear. *)
Inductive step : machine -> machine -> Prop :=
| step_main regs en i rest :
    step (mkMachine regs en (i :: rest))
         (mkMachine (fst (Loop.exec i (regs, en))) (snd (Loop.exec i (regs, en))) rest)
| step_handler regs regs' rest :
    handler regs regs' ->
    step (mkMachine regs true rest) (mkMachine regs' true rest).

Inductive steps : machine -> machine -> Prop :=
| steps_refl m : steps m m
| steps_step m1 m2 m3 : steps m1 m2 -> step m2 m3 -> steps m1 m3.

End Steps.

(** Registers the refresh writes as multi-byte units: the firmware
    version (0, 1) and the five touch deltas (6 to 15). *)
Definition multi_byte (i : Z) : bool :=
  (i =? 0) || (i =? 1) || ((6 <=? i) && (i <=? 15)).

End Preempt.

(** ** Runs of the scanner and of the loop used in the statements below *)

Definition with_speed (s : state) (speed : Z) : state :=
  mkState (i2c_registers s) (led_effect_data s) (social_level s) (system_mode s)
          (button_enabled s) (rainbow_speed s) (u8 speed)
          (knightrider_led s) (knightrider_value s) (knightrider_direction s)
          (hue s) (baseline s) (prev_button s).

(** A run of scanner steps; before each step the host may have written a
    new [scanner_speed], and the step runs for any of the three channels. *)
Fixpoint scan (inputs : list (Z * Z)) (s : state) : state :=
  match inputs with
  | [] => s
  | (color, speed) :: rest => scan rest (Scanner.knightrider_step color (with_speed s speed))
  end.

(** Channel offsets inside an LED's three bytes, as the register names
    ([LED0_GREEN], [LED0_RED], [LED0_BLUE]) and the calls
    [knightrider_step(1)] (red), [(0)] (green), [(2)] (blue) give them. *)
Definition GREEN : Z := 0.
Definition RED : Z := 1.
Definition BLUE : Z := 2.

(** A frame in which every LED has the given three channel values. *)
Definition every_led (d : list Z) (g r b : Z) : Prop :=
  forall i, 0 <= i < 5 ->
    get d (i * 3 + GREEN) = g /\ get d (i * 3 + RED) = r /\ get d (i * 3 + BLUE) = b.

Definition is_bus_setup (e : event) : bool :=
  match e with
  | SetupI2CSlave _ _ _ | SetupSecondaryI2CSlave _ _ _ => true
  | _ => false
  end.

(** The value the last [Store] to cell [k] in a program leaves there. *)
Fixpoint written (p : list instr) (k : nat) : option Z :=
  match p with
  | [] => None
  | i :: rest =>
      match written rest k with
      | Some v => Some v
      | None =>
          match i with
          | Store idx v => if Nat.eqb (Z.to_nat idx) k then Some v else None
          | _ => None
          end
      end
  end.

Definition store_below (bound : nat) (i : instr) : bool :=
  match i with
  | Store idx _ => Nat.ltb (Z.to_nat idx) bound
  | _ => true
  end.

(** High time of the pulse for a bit. *)
Definition pulse_of (bit : bool) : nat := if bit then Leds.T1H else Leds.T0H.

(** Nothing touches the pads or the pins: button released, lines high. *)
Definition quiet : tick_input := mkInput [0; 0; 0; 0; 0] true true true true true.

Fixpoint ticks (ehsv : Z -> Z -> Z -> Z) (inp : tick_input) (n : nat) (s : state) : state :=
  match n with
  | O => s
  | S k => ticks ehsv inp k (fst (Loop.tick ehsv inp s))
  end.

(** The bus is present at start-up, the mode jumper leaves control to
    the host, and the host writes 252 to the scanner speed register and 5
    (red scanner) to the mode register. *)
Definition fast_red_scanner : option state :=
  '(s, _) ← Boot.boot true true false [0; 0; 0; 0; 0];
  Some (Bus.host_write I2C_REG_MODE [5]
         (Bus.host_write I2C_REG_KNIGHTRIDER_SPEED [252] s)).

(** The frame of the start-up fallback, and a run of handler
    invocations on the register file. *)
Definition fallback_frame : list Z :=
  [0; 255; 0; 0; 255; 0; 0; 255; 0; 0; 255; 0; 0; 255; 0].

Definition handler_runs (handler : list Z -> list Z -> Prop) : list Z -> list Z -> Prop :=
  rtc handler.

Definition is_store (i : instr) : bool :=
  match i with Store _ _ => true | _ => false end.

(** A host write of 2 to the mode register, as one handler run. *)
Definition host_sets_mode_2 (regs regs' : list Z) : Prop :=
  regs' = set regs I2C_REG_MODE 2.

(** The refresh block around a run of stores. *)
Definition block (stores : list instr) : list instr := IrqOff :: stores ++ [IrqOn].

(** Where the main loop can be inside the block: not yet in it, in it
    with the interrupt off and some of the stores done, or through it. *)
Inductive at_block (handler : list Z -> list Z -> Prop) (stores : list instr)
    (regs0 : list Z) (m : Preempt.machine) : Prop :=
| before_block :
    Preempt.m_itevten m = true -> Preempt.m_todo m = block stores ->
    handler_runs handler regs0 (Preempt.m_regs m) -> at_block handler stores regs0 m
| inside_block r1 done rest :
    Preempt.m_itevten m = false ->
    handler_runs handler regs0 r1 ->
    stores = done ++ rest ->
    Preempt.m_todo m = rest ++ [IrqOn] ->
    Preempt.m_regs m = fst (Loop.run done (r1, false)) -> at_block handler stores regs0 m
| after_block r1 :
    Preempt.m_itevten m = true -> Preempt.m_todo m = [] ->
    handler_runs handler regs0 r1 ->
    handler_runs handler (fst (Loop.run (block stores) (r1, true))) (Preempt.m_regs m) ->
    at_block handler stores regs0 m.

(** The head and its direction agree: going forward the head is below
    LED 4, going backward it is above LED 0. *)
Definition scanner_inv (s : state) : Prop :=
  (knightrider_direction s = false /\ 0 <= knightrider_led s <= 3)
  \/ (knightrider_direction s = true /\ 1 <= knightrider_led s <= 4).

(** ** The 20 ms period of the loop *)

Module Poll.

Section Gate.

(** [DELAY_MS_TIME] of [ch32v003fun.h], SysTick counts per millisecond; the
    header is not part of the firmware source. *)
Variable DELAY_MS_TIME : Z.

(** [uint32_t poll_interval_inputs = 20 * DELAY_MS_TIME] *)
Definition poll_interval_inputs : Z := u32 (20 * DELAY_MS_TIME).

(** [now - input_poll_previous >= poll_interval_inputs], in [uint32_t]. *)
Definition due (now input_poll_previous : Z) : bool :=
  poll_interval_inputs <=? u32 (now - input_poll_previous).

(** The firmware state with the global [input_poll_previous]. *)
Record loop_state := mkLoop {
  st : state;
  input_poll_previous : Z
}.

(** One iteration of [while (1)] with [now = SysTick->CNT]: the next
    state and, when the body ran, what it transmitted. *)
Definition iteration (ehsv : Z -> Z -> Z -> Z) (now : Z) (inp : tick_input)
    (ls : loop_state) : loop_state * option (option (list event)) :=
  if due now (input_poll_previous ls) then
    let '(s', wire) := Loop.tick ehsv inp (st ls) in
    (mkLoop s' now, Some wire)
  else (ls, None).

End Gate.

End Poll.

(** ** Vocabulary of the further properties *)

(** A 16-bit pattern read as [int16_t], as the host reads a touch delta. *)
Definition s16 (x : Z) : Z :=
  let m := u16 x in if m <? 32768 then m else m - 65536.

(** An effect buffer: 15 bytes. *)
Definition frame_ok (d : list Z) : Prop :=
  length d = LED_EFFECT_DATA_SIZE /\ Forall is_u8 d.

Definition is_irq (e : event) : bool :=
  match e with IrqDisable | IrqEnable => true | _ => false end.

Definition is_led_activity (e : event) : bool :=
  match e with LedHigh | LedLow | Delay_Ms _ => true | _ => false end.

(** One press of the button with button control enabled. *)
Definition press (mode : Z) : Z := Loop.button_update true false true mode.

Definition palette_3 : list Z :=
  [0; 0; 255; 150; 255; 174; 255; 255; 255; 150; 255; 174; 0; 0; 255].

Definition palette_4 : list Z :=
  [0; 255; 0; 0; 255; 0; 255; 255; 255; 0; 0; 255; 0; 0; 255].

(** * Properties *)

(** ** The LED serializer *)

Lemma bit_set_testbit b i : 0 <= i -> Leds.bit_set b i = Z.testbit b i.
Proof.
  intros Hi. unfold Leds.bit_set.
  change 1 with (Z.ones 1). rewrite Z.land_ones by lia.
  rewrite <- (Z.add_0_l i) at 2. rewrite <- Z.shiftr_spec by lia.
  change (2 ^ 1) with 2. rewrite <- Z.bit0_mod.
  destruct (Z.testbit (Z.shiftr b i) 0); reflexivity.
Qed.

Lemma high_durations_send_bit b i rest :
  Leds.high_durations None (Leds.send_bit b i ++ rest)
  = (if Leds.bit_set b i then Leds.T1H else Leds.T0H) :: Leds.high_durations None rest.
Proof.
  unfold Leds.send_bit. destruct (Leds.bit_set b i); reflexivity.
Qed.

Lemma high_durations_send_bits b rest :
  Leds.high_durations None (Leds.send_bits b 8 ++ rest)
  = map pulse_of (Leds.msb_first b) ++ Leds.high_durations None rest.
Proof.
  unfold Leds.send_bits, Leds.msb_first.
  repeat (rewrite <- app_assoc; rewrite high_durations_send_bit;
          rewrite bit_set_testbit by lia).
  reflexivity.
Qed.

Lemma load_app_r pre a k :
  0 <= k -> load (pre ++ a) (Z.of_nat (length pre) + k) = load a k.
Proof.
  intros Hk. unfold load. rewrite length_app.
  replace (Z.to_nat (Z.of_nat (length pre) + k)) with (length pre + Z.to_nat k)%nat by lia.
  rewrite lookup_app_r by lia.
  replace (length pre + Z.to_nat k - length pre)%nat with (Z.to_nat k) by lia.
  destruct (Z.leb_spec 0 k); [| lia].
  destruct (Z.leb_spec 0 (Z.of_nat (length pre) + k)); [| lia].
  destruct (Z.ltb_spec k (Z.of_nat (length a)));
    destruct (Z.ltb_spec (Z.of_nat (length pre) + k) (Z.of_nat (length pre + length a)));
    try reflexivity; lia.
Qed.

Lemma load_head b a : load (b :: a) 0 = Some b.
Proof.
  unfold load. cbn [length]. destruct (Z.ltb_spec 0 (Z.of_nat (S (length a)))); [| lia].
  reflexivity.
Qed.

(** A walk over the whole of an array that starts at its first cell. *)
Lemma send_bytes_all pre data :
  Leds.send_bytes (pre ++ data) 0 (Z.of_nat (length pre)) (length data)
  = Some (flat_map (fun b => Leds.send_bits b 8) data).
Proof.
  revert pre. induction data as [| b data IH]; intros pre; [reflexivity |].
  cbn [length Leds.send_bytes flat_map].
  replace (0 + Z.of_nat (length pre)) with (Z.of_nat (length pre) + 0) by lia.
  rewrite load_app_r by lia. rewrite load_head. cbn [mbind option_bind].
  replace (pre ++ b :: data) with ((pre ++ [b]) ++ data) by (rewrite <- app_assoc; reflexivity).
  replace (Z.of_nat (length pre) + 1) with (Z.of_nat (length (pre ++ [b])))
    by (rewrite length_app; cbn [length]; lia).
  rewrite IH. reflexivity.
Qed.

Lemma high_durations_frame data rest :
  Leds.high_durations None (flat_map (fun b => Leds.send_bits b 8) data ++ rest)
  = flat_map (fun b => map pulse_of (Leds.msb_first b)) data
    ++ Leds.high_durations None rest.
Proof.
  induction data as [| b data IH]; [reflexivity |].
  cbn [flat_map]. rewrite <- !app_assoc.
  rewrite high_durations_send_bits, IH. reflexivity.
Qed.

Lemma write_addressable_leds_all data :
  (length data <= 255)%nat ->
  Leds.write_addressable_leds data 0 (Z.of_nat (length data))
  = Some ([IrqDisable] ++ flat_map (fun b => Leds.send_bits b 8) data ++ [IrqEnable]).
Proof.
  intros Hlen. unfold Leds.write_addressable_leds, u8.
  rewrite Z.mod_small by lia. rewrite Nat2Z.id.
  pose proof (send_bytes_all [] data) as H. cbn [app length] in H.
  change (Z.of_nat 0) with 0 in H. rewrite H. reflexivity.
Qed.

(** C8. For every buffer the serializer accepts (at most 255 bytes, the
    range of its length argument) it sends, between switching the bus
    interrupt off and on again, one pulse per bit, the bits of each byte
    most significant first, holding the line high for 36 nops on a 1 and
    14 nops on a 0, so strictly longer on a 1; the byte 0xA5 goes out as
    long, short, long, short, short, long, short, long. *)
Theorem C8_serializer_msb_first_pulse_widths (data : list Z) :
  (length data <= 255)%nat ->
  exists tr,
    Leds.write_addressable_leds data 0 (Z.of_nat (length data)) = Some tr
    /\ Leds.high_durations None tr
       = flat_map (fun b => map pulse_of (Leds.msb_first b)) data
    /\ (pulse_of false < pulse_of true)%nat
    /\ Leds.wire_bits tr = flat_map Leds.msb_first data
    /\ (Leds.high_durations None <$> Leds.write_addressable_leds [165] 0 1)
       = Some [36; 14; 36; 14; 14; 36; 14; 36]%nat.
Proof.
  intros Hlen. eexists. split; [apply write_addressable_leds_all; exact Hlen |].
  assert (Hd : Leds.high_durations None
                 ([IrqDisable] ++ flat_map (fun b => Leds.send_bits b 8) data ++ [IrqEnable])
               = flat_map (fun b => map pulse_of (Leds.msb_first b)) data).
  { cbn [app Leds.high_durations]. rewrite high_durations_frame.
    cbn [Leds.high_durations]. apply app_nil_r. }
  split; [exact Hd |]. split; [unfold pulse_of, Leds.T0H, Leds.T1H; lia |].
  split; [| reflexivity].
  unfold Leds.wire_bits. rewrite Hd. clear Hd Hlen.
  induction data as [| b data IH]; [reflexivity |].
  cbn [flat_map]. rewrite map_app, IH. f_equal.
  generalize (Leds.msb_first b). intros bits.
  rewrite map_map. rewrite <- (map_id bits) at 2.
  apply map_ext. intros bit. destruct bit; reflexivity.
Qed.

Lemma C8_witness :
  exists tr,
    Leds.write_addressable_leds [165; 0; 255] 0 3 = Some tr
    /\ Leds.high_durations None tr
       = flat_map (fun b => map pulse_of (Leds.msb_first b)) [165; 0; 255]
    /\ (pulse_of false < pulse_of true)%nat
    /\ Leds.wire_bits tr = flat_map Leds.msb_first [165; 0; 255]
    /\ (Leds.high_durations None <$> Leds.write_addressable_leds [165] 0 1)
       = Some [36; 14; 36; 14; 14; 36; 14; 36]%nat.
Proof. apply (C8_serializer_msb_first_pulse_widths [165; 0; 255]). cbn. lia. Defined.

(** The chipset recovers the bytes it was sent. *)
Lemma byte_of_msb_first b : is_u8 b -> Leds.byte_of_bits 0 (Leds.msb_first b) = b.
Proof.
  intros Hb.
  assert (Hall : forallb (fun n => Leds.byte_of_bits 0 (Leds.msb_first (Z.of_nat n)) =? Z.of_nat n)
                         (seq 0 256) = true) by (vm_compute; reflexivity).
  rewrite forallb_forall in Hall.
  specialize (Hall (Z.to_nat b)).
  rewrite Z2Nat.id in Hall by (unfold is_u8 in Hb; lia).
  apply Z.eqb_eq, Hall, in_seq. unfold is_u8 in Hb. lia.
Qed.

Lemma bytes_of_bits_frame data fuel :
  Forall is_u8 data -> (length data <= fuel)%nat ->
  Leds.bytes_of_bits fuel (flat_map Leds.msb_first data) = data.
Proof.
  intros Hall. revert fuel. induction Hall as [| b data Hb Hall IH]; intros fuel Hf.
  - destruct fuel; reflexivity.
  - destruct fuel as [| fuel]; [cbn [length] in Hf; lia |].
    cbn [flat_map].
    change (Leds.msb_first b ++ flat_map Leds.msb_first data)
      with (Z.testbit b 7 :: Z.testbit b 6 :: Z.testbit b 5 :: Z.testbit b 4
            :: Z.testbit b 3 :: Z.testbit b 2 :: Z.testbit b 1 :: Z.testbit b 0
            :: flat_map Leds.msb_first data).
    cbn [Leds.bytes_of_bits firstn skipn].
    rewrite IH by (cbn [length] in Hf; lia).
    f_equal. apply (byte_of_msb_first b Hb).
Qed.

Lemma wire_bytes_frame data :
  Forall is_u8 data ->
  Leds.wire_bytes ([IrqDisable] ++ flat_map (fun b => Leds.send_bits b 8) data ++ [IrqEnable])
  = data.
Proof.
  intros Hall. unfold Leds.wire_bytes, Leds.wire_bits.
  cbn [app Leds.high_durations]. rewrite high_durations_frame.
  cbn [Leds.high_durations]. rewrite app_nil_r.
  assert (Hbits : map Leds.pulse_bit (flat_map (fun b => map pulse_of (Leds.msb_first b)) data)
                  = flat_map Leds.msb_first data).
  { clear Hall. induction data as [| b data IH]; [reflexivity |].
    cbn [flat_map]. rewrite map_app, IH. f_equal.
    generalize (Leds.msb_first b). intros bits.
    rewrite map_map. rewrite <- (map_id bits) at 2.
    apply map_ext. intros bit. destruct bit; reflexivity. }
  rewrite Hbits. apply bytes_of_bits_frame; [exact Hall |].
  clear. induction data as [| b data IH]; [reflexivity |].
  cbn [flat_map length]. rewrite length_app. unfold Leds.msb_first at 1.
  cbn [map length]. lia.
Qed.

(** ** Register file bounds *)

Lemma send_bytes_outside mem base pos k :
  0 <= base + pos ->
  Z.of_nat (length mem) < base + pos + Z.of_nat (S k) ->
  Leds.send_bytes mem base pos (S k) = None.
Proof.
  revert pos. induction k as [| k IH]; intros pos Hlo Hhi.
  - cbn [Leds.send_bytes]. unfold load.
    destruct (Z.ltb_spec (base + pos) (Z.of_nat (length mem))); [lia |].
    rewrite andb_false_r. reflexivity.
  - change (Leds.send_bytes mem base pos (S (S k)))
      with (b ← load mem (base + pos);
            rest ← Leds.send_bytes mem base (pos + 1) (S k);
            Some (Leds.send_bits b 8 ++ rest)).
    rewrite IH by lia.
    destruct (load mem (base + pos)); reflexivity.
Qed.

Lemma send_bytes_inside mem base pos count :
  0 <= base + pos ->
  base + pos + Z.of_nat count <= Z.of_nat (length mem) ->
  is_Some (Leds.send_bytes mem base pos count).
Proof.
  revert pos. induction count as [| k IH]; intros pos Hlo Hhi; [eexists; reflexivity |].
  cbn [Leds.send_bytes].
  assert (Hl : is_Some (load mem (base + pos))).
  { unfold load.
    destruct (Z.leb_spec 0 (base + pos)); [| lia].
    destruct (Z.ltb_spec (base + pos) (Z.of_nat (length mem))); [| lia].
    cbn [andb]. apply lookup_lt_is_Some. lia. }
  destruct Hl as [b Hb]. rewrite Hb. cbn [mbind option_bind].
  destruct (IH (pos + 1)) as [rest Hrest]; [lia | lia |].
  rewrite Hrest. eexists. reflexivity.
Qed.

Lemma passthrough_frame_undefined (regs : list Z) :
  length regs = 35%nat ->
  Leds.write_addressable_leds regs I2C_REG_ADDR_LED0_GREEN 15 = None.
Proof.
  intros Hlen. unfold Leds.write_addressable_leds, I2C_REG_ADDR_LED0_GREEN.
  change (Z.to_nat (u8 15)) with 15%nat.
  rewrite send_bytes_outside; [reflexivity | lia |].
  rewrite Hlen. lia.
Qed.

(** C10. The register file has 35 entries, indices 0 to 34. The
    passthrough transmission of mode 0 walks 15 bytes from index 21: the
    first 14 reads (indices 21 to 34) are inside the array, the fifteenth
    read is at index 35, the index the map calls [LED4_BLUE], and lies
    outside it, so the transmission as a whole has no defined frame. *)
Theorem C10_passthrough_reads_index_35 (regs : list Z) :
  length regs = I2C_REGISTERS_SIZE ->
  is_Some (Leds.send_bytes regs I2C_REG_ADDR_LED0_GREEN 0 14)
  /\ I2C_REG_ADDR_LED0_GREEN + 14 = I2C_REG_ADDR_LED4_BLUE
  /\ ~ (0 <= I2C_REG_ADDR_LED4_BLUE <= 34)
  /\ load regs I2C_REG_ADDR_LED4_BLUE = None
  /\ Leds.send_bytes regs I2C_REG_ADDR_LED0_GREEN 14 1 = None
  /\ Leds.write_addressable_leds regs I2C_REG_ADDR_LED0_GREEN 15 = None.
Proof.
  intros Hlen. unfold I2C_REGISTERS_SIZE in Hlen.
  unfold I2C_REG_ADDR_LED0_GREEN, I2C_REG_ADDR_LED4_BLUE.
  split; [apply send_bytes_inside; rewrite ?Hlen; lia |].
  split; [reflexivity |]. split; [lia |].
  split; [unfold load; rewrite Hlen; reflexivity |].
  split; [apply (send_bytes_outside regs 21 14 0); rewrite ?Hlen; lia |].
  apply passthrough_frame_undefined. exact Hlen.
Qed.

Lemma C10_witness :
  is_Some (Leds.send_bytes (i2c_registers Boot.power_on) I2C_REG_ADDR_LED0_GREEN 0 14)
  /\ I2C_REG_ADDR_LED0_GREEN + 14 = I2C_REG_ADDR_LED4_BLUE
  /\ ~ (0 <= I2C_REG_ADDR_LED4_BLUE <= 34)
  /\ load (i2c_registers Boot.power_on) I2C_REG_ADDR_LED4_BLUE = None
  /\ Leds.send_bytes (i2c_registers Boot.power_on) I2C_REG_ADDR_LED0_GREEN 14 1 = None
  /\ Leds.write_addressable_leds (i2c_registers Boot.power_on) I2C_REG_ADDR_LED0_GREEN 15 = None.
Proof. apply (C10_passthrough_reads_index_35 (i2c_registers Boot.power_on)). reflexivity. Defined.

(** ** Stores into the register file *)

Lemma length_set a i v : length (set a i v) = length a.
Proof. unfold set. apply length_insert. Qed.

Lemma length_run p regs en : length (fst (Loop.run p (regs, en))) = length regs.
Proof.
  unfold Loop.run. revert regs en.
  induction p as [| i p IH]; intros regs en; [reflexivity |].
  cbn [fold_left]. destruct i; cbn [Loop.exec fst snd]; rewrite IH;
    rewrite ?length_set; reflexivity.
Qed.

Lemma run_lookup p regs en (k : nat) :
  (k < length regs)%nat ->
  fst (Loop.run p (regs, en)) !! k
  = match written p k with Some v => Some v | None => regs !! k end.
Proof.
  unfold Loop.run. revert regs en.
  induction p as [| i p IH]; intros regs en Hk; [reflexivity |].
  cbn [fold_left written].
  destruct i as [| idx v |]; cbn [Loop.exec fst snd].
  - rewrite IH by exact Hk. destruct (written p k); reflexivity.
  - rewrite IH by (rewrite length_set; exact Hk).
    destruct (written p k); [reflexivity |].
    unfold set. destruct (Nat.eqb_spec (Z.to_nat idx) k) as [-> | Hne].
    + apply list_lookup_insert_eq. exact Hk.
    + apply list_lookup_insert_ne. exact Hne.
  - rewrite IH by exact Hk. destruct (written p k); reflexivity.
Qed.

Lemma written_above p bound k :
  forallb (store_below bound) p = true -> (bound <= k)%nat -> written p k = None.
Proof.
  intros Hall Hk. induction p as [| i p IH]; [reflexivity |].
  cbn [forallb] in Hall. apply andb_true_iff in Hall as [Hi Hp].
  cbn [written]. rewrite (IH Hp).
  destruct i as [| idx v |]; try reflexivity.
  cbn [store_below] in Hi. apply Nat.ltb_lt in Hi.
  destruct (Nat.eqb_spec (Z.to_nat idx) k); [lia | reflexivity].
Qed.

(** The refresh stores to cells 0 to 20 only. *)
Lemma publish_below_led_region s inp button tv :
  forallb (store_below 21) (Loop.publish_program s inp button tv) = true.
Proof. reflexivity. Qed.

Lemma publish_keeps_led_region s inp button tv (k : nat) :
  (21 <= k)%nat ->
  Loop.publish_registers s inp button tv !! k = i2c_registers s !! k.
Proof.
  intros Hk. unfold Loop.publish_registers.
  destruct (Nat.lt_ge_cases k (length (i2c_registers s))) as [Hin | Hout].
  - rewrite run_lookup by exact Hin.
    rewrite (written_above _ 21 k (publish_below_led_region s inp button tv) Hk).
    reflexivity.
  - rewrite !lookup_ge_None_2; [reflexivity | lia |].
    rewrite length_run. lia.
Qed.

Lemma length_assign_from vals : forall i d, length (assign_from i vals d) = length d.
Proof.
  induction vals as [| v vals IH]; intros i d; [reflexivity |].
  cbn [assign_from]. rewrite IH. apply length_set.
Qed.

Lemma assign_from_before vals : forall i d (k : nat),
  0 <= i -> (k < Z.to_nat i)%nat -> assign_from i vals d !! k = d !! k.
Proof.
  induction vals as [| v vals IH]; intros i d k Hi Hk; [reflexivity |].
  cbn [assign_from]. rewrite IH by lia.
  unfold set. apply list_lookup_insert_ne. lia.
Qed.

Lemma assign_from_inside vals : forall i d (j : nat),
  0 <= i -> (j < length vals)%nat -> (Z.to_nat i + j < length d)%nat ->
  assign_from i vals d !! (Z.to_nat i + j)%nat = vals !! j.
Proof.
  induction vals as [| v vals IH]; intros i d j Hi Hj Hd; [cbn in Hj; lia |].
  cbn [assign_from]. destruct j as [| j].
  - rewrite assign_from_before by lia.
    rewrite Nat.add_0_r. unfold set. cbn [lookup list_lookup].
    apply list_lookup_insert_eq. lia.
  - replace (Z.to_nat i + S j)%nat with (Z.to_nat (i + 1) + j)%nat by lia.
    rewrite IH; [reflexivity | lia | cbn [length] in Hj; lia |].
    rewrite length_set. lia.
Qed.

Lemma send_bytes_loads mem base vals : forall pos,
  (forall j : nat, (j < length vals)%nat ->
     load mem (base + pos + Z.of_nat j) = vals !! j) ->
  Leds.send_bytes mem base pos (length vals)
  = Some (flat_map (fun b => Leds.send_bits b 8) vals).
Proof.
  induction vals as [| v vals IH]; intros pos Hload; [reflexivity |].
  cbn [length Leds.send_bytes flat_map].
  pose proof (Hload 0%nat ltac:(cbn [length]; lia)) as H0.
  rewrite Z.add_0_r in H0. rewrite H0. cbn [lookup list_lookup mbind option_bind].
  rewrite IH; [reflexivity |].
  intros j Hj. specialize (Hload (S j) ltac:(cbn [length]; lia)).
  change ((v :: vals) !! S j) with (vals !! j) in Hload.
  rewrite <- Hload. f_equal. lia.
Qed.

(** ** One pass of the loop *)

Lemma sense_registers inp s :
  exists s1 tv,
    i2c_registers (fst (Loop.sense inp s))
    = Loop.publish_registers s1 inp (negb (pin_button inp)) tv
    /\ i2c_registers s1 = i2c_registers s
    /\ prev_button s1 = negb (pin_button inp).
Proof.
  unfold Loop.sense. destruct (Loop.touch_update _ _ _) as [tv level].
  eexists _, _. cbn [fst i2c_registers prev_button]. repeat split.
Qed.

Lemma sense_mode inp s :
  system_mode (fst (Loop.sense inp s))
  = Loop.button_update (negb (pin_button inp)) (prev_button s) (button_enabled s)
                       (system_mode s).
Proof.
  unfold Loop.sense. destruct (Loop.touch_update _ _ _) as [tv level]. reflexivity.
Qed.

Lemma render_passthrough ehsv tv s : system_mode s = 0 -> Loop.render ehsv tv s = s.
Proof. intros H. unfold Loop.render. rewrite H. reflexivity. Qed.

Lemma tick_passthrough ehsv inp s :
  system_mode (fst (Loop.sense inp s)) = 0 ->
  Loop.tick ehsv inp s
  = (fst (Loop.sense inp s),
     t0 ← Leds.write_addressable_leds (i2c_registers (fst (Loop.sense inp s)))
            I2C_REG_ADDR_LED0_GREEN 15;
     Some (t0 ++ [])).
Proof.
  intros Hmode. unfold Loop.tick. destruct (Loop.sense inp s) as [s1 tv].
  cbn [fst] in *. rewrite render_passthrough by exact Hmode.
  unfold Loop.transmit. rewrite Hmode. reflexivity.
Qed.

Lemma host_write_registers reg data s :
  i2c_registers (Bus.host_write reg data s)
  = assign_from reg (map u8 data) (i2c_registers s).
Proof. reflexivity. Qed.

Lemma host_write_mode reg data s :
  system_mode (Bus.host_write reg data s)
  = get (i2c_registers (Bus.host_write reg data s)) I2C_REG_MODE.
Proof. reflexivity. Qed.

Lemma button_update_released prev enabled mode :
  Loop.button_update false prev enabled mode = mode.
Proof. reflexivity. Qed.

(** C1. The host writes 15 colour bytes to registers 21 through 35 while
    the mode register holds 0, and the next pass of the loop runs with the
    button released. The register file has no entry 35: the first 14
    bytes are stored and are what the transmission walks over first, in
    order, but its fifteenth read leaves the array, so the pass has no
    defined 15-byte frame for the wire, whatever the host wrote. *)
Theorem C1_passthrough_frame_leaves_register_file
    (ehsv : Z -> Z -> Z -> Z) (inp : tick_input) (s : state) (data : list Z) :
  length (i2c_registers s) = I2C_REGISTERS_SIZE ->
  get (i2c_registers s) I2C_REG_MODE = 0 ->
  length data = 15%nat ->
  pin_button inp = true ->
  let s1 := Bus.host_write I2C_REG_ADDR_LED0_GREEN data s in
  let s2 := fst (Loop.tick ehsv inp s1) in
  system_mode s2 = 0
  /\ Leds.send_bytes (i2c_registers s2) I2C_REG_ADDR_LED0_GREEN 0 14
     = Some (flat_map (fun b => Leds.send_bits b 8) (map u8 (firstn 14 data)))
  /\ load (i2c_registers s2) I2C_REG_ADDR_LED4_BLUE = None
  /\ snd (Loop.tick ehsv inp s1) = None.
Proof.
  intros Hlen Hmode Hdata Hbutton s1 s2.
  unfold I2C_REGISTERS_SIZE in Hlen.
  assert (Hlen1 : length (i2c_registers s1) = 35%nat).
  { subst s1. rewrite host_write_registers, length_assign_from. exact Hlen. }
  assert (Hmode1 : system_mode s1 = 0).
  { subst s1. rewrite host_write_mode, host_write_registers.
    unfold get, I2C_REG_MODE, I2C_REG_ADDR_LED0_GREEN in *.
    rewrite assign_from_before by lia. exact Hmode. }
  assert (Hsense : system_mode (fst (Loop.sense inp s1)) = 0).
  { rewrite sense_mode, Hbutton. cbn [negb].
    rewrite button_update_released. exact Hmode1. }
  assert (Hs2 : s2 = fst (Loop.sense inp s1)).
  { subst s2. rewrite tick_passthrough by exact Hsense. reflexivity. }
  destruct (sense_registers inp s1) as (s1' & tv & Hregs & Hsame & _).
  assert (Hlen2 : length (i2c_registers s2) = 35%nat).
  { rewrite Hs2, Hregs. unfold Loop.publish_registers.
    rewrite length_run, Hsame. exact Hlen1. }
  split; [rewrite Hs2; exact Hsense |]. split; [| split].
  - assert (H14 : length (map u8 (firstn 14 data)) = 14%nat).
    { rewrite length_map, length_firstn. lia. }
    rewrite <- H14 at 1. apply send_bytes_loads.
    intros j Hj. rewrite H14 in Hj.
    unfold load, I2C_REG_ADDR_LED0_GREEN. rewrite Hlen2.
    destruct (Z.leb_spec 0 (21 + 0 + Z.of_nat j)); [| lia].
    destruct (Z.ltb_spec (21 + 0 + Z.of_nat j) (Z.of_nat 35)); [| lia].
    cbn [andb].
    replace (Z.to_nat (21 + 0 + Z.of_nat j)) with (Z.to_nat 21 + j)%nat by lia.
    rewrite Hs2, Hregs, publish_keeps_led_region by lia.
    rewrite Hsame. subst s1. rewrite host_write_registers.
    unfold I2C_REG_ADDR_LED0_GREEN.
    rewrite assign_from_inside; [| lia | rewrite length_map; lia | lia].
    rewrite !list_lookup_fmap. f_equal.
    symmetry. apply lookup_take_lt. lia.
  - unfold load, I2C_REG_ADDR_LED4_BLUE. rewrite Hlen2. reflexivity.
  - rewrite tick_passthrough by exact Hsense. cbn [snd].
    fold s2 in Hs2. rewrite <- Hs2.
    rewrite (passthrough_frame_undefined (i2c_registers s2) Hlen2). reflexivity.
Qed.

Lemma C1_witness :
  let s1 := Bus.host_write I2C_REG_ADDR_LED0_GREEN
              [1; 2; 3; 4; 5; 6; 7; 8; 9; 10; 11; 12; 13; 14; 15] Boot.power_on in
  let s2 := fst (Loop.tick (fun _ _ _ => 0) quiet s1) in
  system_mode s2 = 0
  /\ Leds.send_bytes (i2c_registers s2) I2C_REG_ADDR_LED0_GREEN 0 14
     = Some (flat_map (fun b => Leds.send_bits b 8)
               (map u8 (firstn 14 [1; 2; 3; 4; 5; 6; 7; 8; 9; 10; 11; 12; 13; 14; 15])))
  /\ load (i2c_registers s2) I2C_REG_ADDR_LED4_BLUE = None
  /\ snd (Loop.tick (fun _ _ _ => 0) quiet s1) = None.
Proof.
  apply (C1_passthrough_frame_leaves_register_file (fun _ _ _ => 0) quiet Boot.power_on
           [1; 2; 3; 4; 5; 6; 7; 8; 9; 10; 11; 12; 13; 14; 15]); reflexivity.
Defined.

(** ** Touch level *)

Lemma s32_small x : -2147483648 <= x < 2147483648 -> s32 x = x.
Proof.
  intros H. unfold s32, u32.
  destruct (Z_lt_le_dec x 0) as [Hn | Hp].
  - replace (x mod 4294967296) with (x + 4294967296).
    + destruct (Z.ltb_spec (x + 4294967296) 2147483648); lia.
    + apply Z.mod_unique with (q := -1); lia.
  - rewrite Z.mod_small by lia.
    destruct (Z.ltb_spec x 2147483648); lia.
Qed.

Lemma touch_delta_exact raw base i :
  0 <= get raw i < 2147483648 -> 0 <= get base i < 2147483648 ->
  Loop.touch_delta raw base i = get raw i - get base i.
Proof. intros Hr Hb. unfold Loop.touch_delta. apply s32_small. lia. Qed.

Lemma touch_update_level raw base level :
  snd (Loop.touch_update raw base level)
  = let d := Loop.touch_delta raw base in
    if 1900 <? d 4 then 4 else
    if 1900 <? d 3 then 3 else
    if 1900 <? d 2 then 2 else
    if 1900 <? d 1 then 1 else
    if 1900 <? d 0 then 0 else level.
Proof.
  unfold Loop.touch_update, for_range, Loop.touch_step. cbn [fst snd].
  change (0 + 1 + 1 + 1 + 1) with 4. change (0 + 1 + 1 + 1) with 3.
  change (0 + 1 + 1) with 2. change (0 + 1) with 1.
  change (u8 4) with 4. change (u8 3) with 3. change (u8 2) with 2.
  change (u8 1) with 1. change (u8 0) with 0. cbv zeta.
  destruct (1900 <? Loop.touch_delta raw base 4); [reflexivity |].
  destruct (1900 <? Loop.touch_delta raw base 3); [reflexivity |].
  destruct (1900 <? Loop.touch_delta raw base 2); [reflexivity |].
  destruct (1900 <? Loop.touch_delta raw base 1); [reflexivity |].
  reflexivity.
Qed.

(** C2. In the touch loop of one pass, with delta[i] the 32-bit signed
    difference raw[i] - baseline[i] the code computes (the plain
    difference whenever both counts are below 2^31): the resulting social
    level is the highest channel index whose delta exceeds 1900, and is
    the level the pass started with when no delta exceeds 1900. *)
Theorem C2_highest_channel_over_threshold_wins (raw base : list Z) (level : Z) :
  let delta := Loop.touch_delta raw base in
  let level' := snd (Loop.touch_update raw base level) in
  (forall i, 0 <= i < 5 -> 1900 < delta i ->
     (forall j, i < j < 5 -> delta j <= 1900) -> level' = i)
  /\ ((forall i, 0 <= i < 5 -> delta i <= 1900) -> level' = level)
  /\ (forall i, 0 <= get raw i < 2147483648 -> 0 <= get base i < 2147483648 ->
        delta i = get raw i - get base i).
Proof.
  intros delta level'. subst level'. rewrite touch_update_level.
  fold delta. cbv zeta.
  split; [| split].
  - intros i Hi Hover Hrest.
    assert (Hcases : i = 0 \/ i = 1 \/ i = 2 \/ i = 3 \/ i = 4) by lia.
    pose proof (Hrest 1) as H1. pose proof (Hrest 2) as H2.
    pose proof (Hrest 3) as H3. pose proof (Hrest 4) as H4.
    destruct Hcases as [-> | [-> | [-> | [-> | ->]]]];
      destruct (Z.ltb_spec 1900 (delta 4)); try lia;
      destruct (Z.ltb_spec 1900 (delta 3)); try lia;
      destruct (Z.ltb_spec 1900 (delta 2)); try lia;
      destruct (Z.ltb_spec 1900 (delta 1)); try lia;
      destruct (Z.ltb_spec 1900 (delta 0)); lia.
  - intros Hnone.
    pose proof (Hnone 0) as H0. pose proof (Hnone 1) as H1.
    pose proof (Hnone 2) as H2. pose proof (Hnone 3) as H3.
    pose proof (Hnone 4) as H4.
    destruct (Z.ltb_spec 1900 (delta 4)); [lia |].
    destruct (Z.ltb_spec 1900 (delta 3)); [lia |].
    destruct (Z.ltb_spec 1900 (delta 2)); [lia |].
    destruct (Z.ltb_spec 1900 (delta 1)); [lia |].
    destruct (Z.ltb_spec 1900 (delta 0)); [lia |].
    reflexivity.
  - intros i. apply touch_delta_exact.
Qed.

Lemma C2_witness :
  snd (Loop.touch_update [0; 2000; 0; 2500; 0] [0; 0; 0; 0; 0] 0) = 3
  /\ snd (Loop.touch_update [7; 7; 7; 7; 7] [0; 0; 0; 0; 0] 2) = 2.
Proof.
  split.
  - apply (proj1 (C2_highest_channel_over_threshold_wins
                    [0; 2000; 0; 2500; 0] [0; 0; 0; 0; 0] 0) 3).
    + lia.
    + vm_compute. reflexivity.
    + intros j Hj. assert (j = 4) as -> by lia. vm_compute. discriminate.
  - apply (proj1 (proj2 (C2_highest_channel_over_threshold_wins
                           [7; 7; 7; 7; 7] [0; 0; 0; 0; 0] 2))).
    intros i Hi.
    assert (i = 0 \/ i = 1 \/ i = 2 \/ i = 3 \/ i = 4) as [-> | [-> | [-> | [-> | ->]]]]
      by lia; vm_compute; discriminate.
Defined.

(** ** The scanner head *)

Lemma knightrider_step_head color s :
  (knightrider_led (Scanner.knightrider_step color s),
   knightrider_value (Scanner.knightrider_step color s),
   knightrider_direction (Scanner.knightrider_step color s))
  = Scanner.advance (knightrider_speed s) (knightrider_led s) (knightrider_value s)
                    (knightrider_direction s).
Proof.
  unfold Scanner.knightrider_step.
  destruct (Scanner.advance _ _ _ _) as [[led value] direction]. reflexivity.
Qed.

Lemma advance_head speed led value (direction : bool) :
  (direction = false /\ 0 <= led <= 3) \/ (direction = true /\ 1 <= led <= 4) ->
  let '(led', _, direction') := Scanner.advance speed led value direction in
  ((direction' = false /\ 0 <= led' <= 3) \/ (direction' = true /\ 1 <= led' <= 4))
  /\ ((direction = false /\ direction' = true) <-> (led <> 4 /\ led' = 4))
  /\ ((direction = true /\ direction' = false) <-> (led <> 0 /\ led' = 0)).
Proof.
  intros Hinv. unfold Scanner.advance.
  destruct (Z.ltb_spec (255 - speed) value) as [Hmove | Hstay].
  - destruct Hinv as [[-> Hled] | [-> Hled]]; cbn [negb].
    + replace (u8 (led + 1)) with (led + 1) by (unfold u8; rewrite Z.mod_small; lia).
      destruct (Z.leb_spec 4 (led + 1)); intuition (try discriminate; try lia).
    + replace (u8 (led - 1)) with (led - 1) by (unfold u8; rewrite Z.mod_small; lia).
      destruct (Z.eqb_spec (led - 1) 0); intuition (try discriminate; try lia).
  - destruct Hinv as [[-> Hled] | [-> Hled]];
      intuition (try discriminate; try lia).
Qed.

Lemma knightrider_step_inv color s :
  scanner_inv s -> scanner_inv (Scanner.knightrider_step color s).
Proof.
  intros Hinv. unfold scanner_inv in *.
  pose proof (knightrider_step_head color s) as Hhead.
  pose proof (advance_head (knightrider_speed s) (knightrider_led s)
                (knightrider_value s) (knightrider_direction s) Hinv) as Hadv.
  destruct (Scanner.advance _ _ _ _) as [[led value] direction].
  injection Hhead as -> _ ->. apply Hadv.
Qed.

Lemma scan_inv inputs : forall s, scanner_inv s -> scanner_inv (scan inputs s).
Proof.
  induction inputs as [| [color speed] inputs IH]; intros s Hinv; [exact Hinv |].
  cbn [scan]. apply IH, knightrider_step_inv. exact Hinv.
Qed.

(** C3. From the power-on scanner state (head 0, forward), after any run
    of scanner steps under any host-written speeds, the head is in [0,4]
    before and after the next step, that step turns the direction from
    forward to backward exactly when it brings the head to 4, and from
    backward to forward exactly when it brings the head to 0. *)
Theorem C3_scanner_head_bounces_between_0_and_4
    (inputs : list (Z * Z)) (color speed : Z) :
  let s := with_speed (scan inputs Boot.power_on) speed in
  let s' := Scanner.knightrider_step color s in
  0 <= knightrider_led s <= 4
  /\ 0 <= knightrider_led s' <= 4
  /\ ((knightrider_direction s = false /\ knightrider_direction s' = true)
      <-> (knightrider_led s <> 4 /\ knightrider_led s' = 4))
  /\ ((knightrider_direction s = true /\ knightrider_direction s' = false)
      <-> (knightrider_led s <> 0 /\ knightrider_led s' = 0)).
Proof.
  intros s s'.
  assert (Hinv : scanner_inv s).
  { assert (H0 : scanner_inv Boot.power_on) by (left; cbn; lia).
    apply (scan_inv inputs) in H0. exact H0. }
  pose proof (knightrider_step_head color s) as Hhead. fold s' in Hhead.
  pose proof (advance_head (knightrider_speed s) (knightrider_led s)
                (knightrider_value s) (knightrider_direction s) Hinv) as Hadv.
  destruct (Scanner.advance _ _ _ _) as [[led value] direction].
  injection Hhead as Hl _ Hd. rewrite Hl, Hd.
  destruct Hadv as (Hinv' & Hfwd & Hbwd).
  split; [unfold scanner_inv in Hinv; lia |].
  split; [lia |]. split; assumption.
Qed.

(** ** The scanner ramp *)

Lemma ramp_spec v :
  is_u8 v ->
  Scanner.ramp v = if (206 <=? v) && (v <=? 214) then v - 206 else Z.min (v + 50) 255.
Proof.
  unfold is_u8, Scanner.ramp, u8. intros Hv.
  destruct (Z.ltb_spec v 215); destruct (Z.leb_spec 206 v);
    destruct (Z.leb_spec v 214); cbn [andb]; try lia.
  - symmetry. apply Z.mod_unique with (q := 1); lia.
  - rewrite Z.mod_small by lia. lia.
Qed.

(** C4. The ramp of a scanner step on a head byte of 210: the code yields
    4, where adding 50 and saturating yields 255. The byte is reached on
    the device: with scanner speed 252 in mode 5, after 33 passes LED 2's
    red byte is 220, the 34th pass fades it to 210, keeps the head on
    LED 2 and ramps it to 4. *)
Theorem C4_ramp_wraps_between_206_and_214 :
  Scanner.ramp 210 = 4
  /\ Z.min (210 + 50) 255 = 255
  /\ ((fun s => (knightrider_led s, get (led_effect_data s) (2 * 3 + RED)))
        <$> (ticks (fun _ _ _ => 0) quiet 33 <$> fast_red_scanner)) = Some (2, 220)
  /\ ((fun s => (knightrider_led s, get (led_effect_data s) (2 * 3 + RED)))
        <$> (ticks (fun _ _ _ => 0) quiet 34 <$> fast_red_scanner)) = Some (2, 4).
Proof. repeat split; vm_compute; reflexivity. Qed.

(** ** The button *)

(** The claim of C5 at mode 255: the increment wraps the 8-bit mode to 0,
    which passes the test against 7, so the button leaves the mode at 0. *)
Lemma C5_counterexample_mode_255 :
  ~ (forall mode, is_u8 mode -> 1 <= Loop.button_update true false true mode <= 7).
Proof.
  intros H. specialize (H 255 ltac:(unfold is_u8; lia)).
  vm_compute in H. destruct H as [H _]. apply H. reflexivity.
Qed.

(** C5, amended. For every current mode value the button code changes
    the mode only when the button is pressed now, was not pressed at the
    previous pass and button control is enabled. On such a pass, from
    every mode 0 to 254 the mode it sets is in 1..7, the next mode up to
    7 and 1 from 7 on; from mode 255 the 8-bit increment wraps and the
    mode it sets is 0. *)
Theorem C5_button_advances_mode_within_1_to_7
    (button prev enabled : bool) (mode : Z) :
  let mode' := Loop.button_update button prev enabled mode in
  (mode' <> mode -> button = true /\ prev = false /\ enabled = true)
  /\ (button = true -> prev = false -> enabled = true ->
       (0 <= mode <= 254 ->
          1 <= mode' <= 7
          /\ (mode < 7 -> mode' = mode + 1)
          /\ (7 <= mode -> mode' = 1))
       /\ (mode = 255 -> mode' = 0)).
Proof.
  intros mode'. subst mode'. unfold Loop.button_update. split.
  - destruct button, prev, enabled; cbn [andb negb]; intros H;
      try (exfalso; apply H; reflexivity). repeat split.
  - intros -> -> ->. cbn [andb negb]. split.
    + intros Hmode. unfold u8. rewrite Z.mod_small by lia.
      destruct (Z.ltb_spec 7 (mode + 1)); lia.
    + intros ->. reflexivity.
Qed.

Lemma C5_witness :
  Loop.button_update true false true 7 = 1
  /\ Loop.button_update true false true 3 = 4
  /\ Loop.button_update true false true 255 = 0
  /\ (Loop.button_update true true true 255 <> 255 ->
      true = true /\ true = false /\ true = true).
Proof.
  pose proof (C5_button_advances_mode_within_1_to_7 true false true 7) as H7.
  pose proof (C5_button_advances_mode_within_1_to_7 true false true 3) as H3.
  pose proof (C5_button_advances_mode_within_1_to_7 true false true 255) as H255.
  pose proof (C5_button_advances_mode_within_1_to_7 true true true 255) as Hheld.
  cbv zeta in H7, H3, H255, Hheld.
  destruct H7 as [_ H7]. destruct H3 as [_ H3]. destruct H255 as [_ H255].
  destruct Hheld as [Hheld _].
  destruct (H7 eq_refl eq_refl eq_refl) as [H7a _].
  destruct (H3 eq_refl eq_refl eq_refl) as [H3a _].
  destruct (H255 eq_refl eq_refl eq_refl) as [_ H255b].
  split; [apply H7a; lia |]. split; [apply H3a; lia |].
  split; [apply H255b; reflexivity | exact Hheld].
Defined.

Lemma knightrider_step_registers color s :
  i2c_registers (Scanner.knightrider_step color s) = i2c_registers s.
Proof.
  unfold Scanner.knightrider_step.
  destruct (Scanner.advance _ _ _ _) as [[led value] direction]. reflexivity.
Qed.

Lemma render_registers ehsv tv s :
  i2c_registers (Loop.render ehsv tv s) = i2c_registers s.
Proof.
  unfold Loop.render.
  repeat match goal with
         | |- context [match ?x with _ => _ end] => destruct x
         end;
    first [reflexivity | apply knightrider_step_registers].
Qed.

Lemma tick_registers ehsv inp s :
  i2c_registers (fst (Loop.tick ehsv inp s)) = i2c_registers (fst (Loop.sense inp s)).
Proof.
  unfold Loop.tick. destruct (Loop.sense inp s) as [s1 tv].
  cbn [fst]. apply render_registers.
Qed.

Lemma button_register_same (b : bool) :
  Loop.button_register b b = if b then 3 else 0.
Proof. destruct b; reflexivity. Qed.

(** C7. After every pass of the loop, bit 0 and bit 1 of the button
    register (index 19) both hold the button state sampled in that pass,
    whatever the state sampled in the pass before: the code copies the new
    sample into [prev_button] before it builds the register value. *)
Theorem C7_button_register_bits_equal
    (ehsv : Z -> Z -> Z -> Z) (inp : tick_input) (s : state) :
  (Z.to_nat I2C_REG_BUTTON < length (i2c_registers s))%nat ->
  let r := get (i2c_registers (fst (Loop.tick ehsv inp s))) I2C_REG_BUTTON in
  Z.testbit r 0 = negb (pin_button inp)
  /\ Z.testbit r 1 = negb (pin_button inp)
  /\ r = if negb (pin_button inp) then 3 else 0.
Proof.
  intros Hlen r.
  assert (Hr : r = if negb (pin_button inp) then 3 else 0).
  { subst r. rewrite tick_registers.
    destruct (sense_registers inp s) as (s1 & tv & Hregs & Hsame & Hprev).
    rewrite Hregs. unfold get, Loop.publish_registers.
    rewrite run_lookup by (rewrite Hsame; exact Hlen).
    change (written (Loop.publish_program s1 inp (negb (pin_button inp)) tv)
                    (Z.to_nat I2C_REG_BUTTON))
      with (Some (Loop.button_register (negb (pin_button inp)) (prev_button s1))).
    cbn [default]. rewrite Hprev. apply button_register_same. }
  rewrite Hr. destruct (negb (pin_button inp)); repeat split.
Qed.

(** The button was released at the previous pass and is pressed now: the
    register reads 3, bit 1 set, not 1. *)
Lemma C7_witness :
  prev_button Boot.power_on = false
  /\ get (i2c_registers (fst (Loop.tick (fun _ _ _ => 0)
             (mkInput [0; 0; 0; 0; 0] false true true true true) Boot.power_on)))
         I2C_REG_BUTTON = 3.
Proof.
  split; [reflexivity |].
  apply (C7_button_register_bits_equal (fun _ _ _ => 0)
           (mkInput [0; 0; 0; 0; 0] false true true true true) Boot.power_on).
  vm_compute. lia.
Defined.

(** ** Start-up without a usable bus *)

(** The claim of C6 at start-up with both bus lines low: the frame the
    fallback leaves in the buffer and sends is not green 255, red 0,
    blue 0 on every LED. *)
Lemma C6_counterexample_fallback_not_green :
  ~ (exists s tr, Boot.boot false false false [0; 0; 0; 0; 0] = Some (s, tr)
                  /\ every_led (led_effect_data s) 255 0 0).
Proof.
  intros (s & tr & Hboot & Hgreen).
  destruct (Hgreen 0 ltac:(lia)) as (Hg & _).
  unfold Boot.boot in Hboot. cbn [orb] in Hboot.
  destruct (Leds.write_addressable_leds _ 0 15) as [t |]; [| discriminate].
  cbn [mbind option_bind] in Hboot. injection Hboot as <- _.
  vm_compute in Hg. discriminate.
Qed.

(** C6, amended. When both bus lines read low at start-up, whatever the
    mode jumper and the touch pads read, the firmware sets up neither bus
    peripheral and, after configuring its pins, sends one frame and waits
    100 ms; the frame is red on all five LEDs (green 0, red 255, blue 0). *)
Theorem C6_no_bus_fallback_is_all_red (pin_mode : bool) (touch : list Z) :
  exists s tr,
    Boot.boot false false pin_mode touch
    = Some (s, Boot.configure_pins ++ tr ++ [Delay_Ms 100])
    /\ Leds.write_addressable_leds (led_effect_data s) 0 15 = Some tr
    /\ led_effect_data s = fallback_frame
    /\ every_led (led_effect_data s) 0 255 0
    /\ Leds.wire_bytes tr = fallback_frame
    /\ forallb (fun e => negb (is_bus_setup e))
               (Boot.configure_pins ++ tr ++ [Delay_Ms 100]) = true.
Proof.
  pose proof (write_addressable_leds_all fallback_frame ltac:(cbn; lia)) as Htr.
  change (Z.of_nat (length fallback_frame)) with 15 in Htr.
  eexists _, _. split; [| split; [| split; [| split; [| split]]]].
  - unfold Boot.boot. cbn [orb].
    change (for_range 0 5 Boot.fallback_led (led_effect_data Boot.power_on))
      with fallback_frame.
    rewrite Htr. cbn [mbind option_bind]. reflexivity.
  - exact Htr.
  - reflexivity.
  - intros i Hi. cbn [led_effect_data].
    assert (i = 0 \/ i = 1 \/ i = 2 \/ i = 3 \/ i = 4) as [-> | [-> | [-> | [-> | ->]]]]
      by lia; repeat split.
  - apply wire_bytes_frame. unfold fallback_frame, is_u8.
    repeat constructor; lia.
  - vm_compute. reflexivity.
Qed.

(** ** The register refresh and the bus interrupt *)

Ltac simpl_machine :=
  cbn [Preempt.m_itevten Preempt.m_todo Preempt.m_regs Loop.exec fst snd app].

Section Refresh.

Variable handler : list Z -> list Z -> Prop.
Variable stores : list instr.
Hypothesis stores_only : forallb is_store stores = true.

Lemma run_snoc p i m : Loop.run (p ++ [i]) m = Loop.exec i (Loop.run p m).
Proof. unfold Loop.run. rewrite fold_left_app. reflexivity. Qed.

Lemma run_block regs :
  fst (Loop.run (block stores) (regs, true)) = fst (Loop.run stores (regs, false)).
Proof.
  unfold block, Loop.run. cbn [fold_left Loop.exec fst].
  fold (Loop.run (stores ++ [IrqOn]) (regs, false)). rewrite run_snoc. reflexivity.
Qed.

Lemma at_block_step regs0 m m' :
  at_block handler stores regs0 m -> Preempt.step handler m m' ->
  at_block handler stores regs0 m'.
Proof.
  intros Hat Hstep.
  destruct Hat as [Hen Htodo Hruns
                  | r1 done rest Hen Hruns Hsplit Htodo Hregs
                  | r1 Hen Htodo Hruns1 Hruns2].
  - inversion Hstep as [regs en i rest' Hm Hm' | regs regs' rest' Hh Hm Hm'];
      subst m m'; cbn [Preempt.m_itevten Preempt.m_todo Preempt.m_regs] in *.
    + unfold block in Htodo. injection Htodo as -> ->. subst en.
      apply (inside_block _ _ _ _ regs [] stores); simpl_machine; try reflexivity. exact Hruns.
    + apply before_block; simpl_machine; try assumption.
      unfold handler_runs in *. eapply rtc_r; eassumption.
  - inversion Hstep as [regs en i rest' Hm Hm' | regs regs' rest' Hh Hm Hm'];
      subst m m'; cbn [Preempt.m_itevten Preempt.m_todo Preempt.m_regs] in *;
      [| discriminate].
    subst en. destruct rest as [| st rest].
    + cbn [app] in Htodo. injection Htodo as -> ->.
      rewrite app_nil_r in Hsplit. subst done.
      apply (after_block _ _ _ _ r1); simpl_machine; try reflexivity; [exact Hruns |].
      rewrite run_block, <- Hregs. apply rtc_refl.
    + cbn [app] in Htodo. injection Htodo as -> ->.
      assert (Hst : is_store st = true).
      { rewrite Hsplit in stores_only. rewrite forallb_app in stores_only.
        apply andb_true_iff in stores_only as [_ Hrest].
        cbn [forallb] in Hrest. apply andb_true_iff in Hrest as [Hst _]. exact Hst. }
      destruct st as [| idx v |]; try discriminate Hst.
      apply (inside_block _ _ _ _ r1 (done ++ [Store idx v]) rest); simpl_machine; try reflexivity.
      * exact Hruns.
      * rewrite Hsplit, <- app_assoc. reflexivity.
      * rewrite run_snoc. cbn [Loop.exec fst]. rewrite Hregs. reflexivity.
  - inversion Hstep as [regs en i rest' Hm Hm' | regs regs' rest' Hh Hm Hm'];
      subst m m'; cbn [Preempt.m_itevten Preempt.m_todo Preempt.m_regs] in *;
      [discriminate |].
    apply (after_block _ _ _ _ r1); simpl_machine; try assumption.
    unfold handler_runs in *. eapply rtc_r; eassumption.
Qed.

Lemma at_block_steps regs0 m :
  Preempt.steps handler (Preempt.mkMachine regs0 true (block stores)) m ->
  at_block handler stores regs0 m.
Proof.
  intros Hsteps.
  remember (Preempt.mkMachine regs0 true (block stores)) as m0 eqn:Hm0.
  induction Hsteps as [m | m1 m2 m3 Hsteps IH Hstep].
  - subst m. apply before_block; reflexivity.
  - eapply at_block_step; [apply IH; exact Hm0 | exact Hstep].
Qed.

Lemma handler_sees_whole_block regs0 m :
  Preempt.steps handler (Preempt.mkMachine regs0 true (block stores)) m ->
  Preempt.m_itevten m = true ->
  (Preempt.m_todo m = (block stores) /\ handler_runs handler regs0 (Preempt.m_regs m))
  \/ (Preempt.m_todo m = []
      /\ exists r1, handler_runs handler regs0 r1
           /\ handler_runs handler (fst (Loop.run (block stores) (r1, true))) (Preempt.m_regs m)).
Proof.
  intros Hsteps Hen.
  destruct (at_block_steps regs0 m Hsteps)
    as [_ Htodo Hruns | r1 done rest Hoff _ _ _ _ | r1 _ Htodo Hruns1 Hruns2].
  - left. split; assumption.
  - congruence.
  - right. split; [exact Htodo |]. exists r1. split; assumption.
Qed.

End Refresh.

Lemma publish_program_shape s inp button tv :
  let stores := removelast (tl (Loop.publish_program s inp button tv)) in
  forallb is_store stores = true
  /\ Loop.publish_program s inp button tv = block stores.
Proof. split; reflexivity. Qed.

Lemma steps_main handler p : forall rest regs en,
  Preempt.steps handler (Preempt.mkMachine regs en (p ++ rest))
    (Preempt.mkMachine (fst (Loop.run p (regs, en))) (snd (Loop.run p (regs, en))) rest).
Proof.
  induction p as [| i p IH] using rev_ind; intros rest regs en; [apply Preempt.steps_refl |].
  rewrite run_snoc, <- app_assoc. cbn [app].
  eapply Preempt.steps_step; [apply IH |].
  pose proof (Preempt.step_main handler (fst (Loop.run p (regs, en)))
                (snd (Loop.run p (regs, en))) i rest) as Hs.
  rewrite <- surjective_pairing in Hs. exact Hs.
Qed.

Lemma multi_byte_cases i :
  Preempt.multi_byte i = true -> i = 0 \/ i = 1 \/ 6 <= i <= 15.
Proof.
  unfold Preempt.multi_byte. intros H.
  destruct (Z.eqb_spec i 0); [lia |]. destruct (Z.eqb_spec i 1); [lia |].
  cbn [orb] in H. apply andb_true_iff in H as [H6 H15].
  apply Z.leb_le in H6, H15. lia.
Qed.

Lemma publish_writes_multi_byte s inp button tv i :
  Preempt.multi_byte i = true ->
  is_Some (written (Loop.publish_program s inp button tv) (Z.to_nat i)).
Proof.
  intros H. apply multi_byte_cases in H.
  assert (Hc : i = 0 \/ i = 1 \/ i = 6 \/ i = 7 \/ i = 8 \/ i = 9 \/ i = 10
               \/ i = 11 \/ i = 12 \/ i = 13 \/ i = 14 \/ i = 15) by lia.
  repeat (destruct Hc as [-> | Hc]; [eexists; reflexivity |]).
  subst i. eexists. reflexivity.
Qed.

Section Quiet_handler.

Variable handler : list Z -> list Z -> Prop.

(** The handler leaves the size of the file and the read-only multi-byte
    registers alone. *)
Hypothesis handler_keeps : forall r r',
  handler r r' ->
  length r' = length r
  /\ forall i, Preempt.multi_byte i = true -> r' !! Z.to_nat i = r !! Z.to_nat i.

Lemma handler_runs_keep r r' :
  handler_runs handler r r' ->
  length r' = length r
  /\ forall i, Preempt.multi_byte i = true -> r' !! Z.to_nat i = r !! Z.to_nat i.
Proof.
  unfold handler_runs. induction 1 as [r | r1 r2 r3 Hstep Hrest IH].
  - split; reflexivity.
  - destruct (handler_keeps _ _ Hstep) as [Hl Hk]. destruct IH as [Hl' Hk'].
    split; [congruence |]. intros i Hi. rewrite Hk', Hk by exact Hi. reflexivity.
Qed.

Lemma published_multi_byte s inp button tv regs0 r1 r2 i :
  length regs0 = I2C_REGISTERS_SIZE ->
  handler_runs handler regs0 r1 ->
  handler_runs handler (fst (Loop.run (Loop.publish_program s inp button tv) (r1, true))) r2 ->
  Preempt.multi_byte i = true ->
  r2 !! Z.to_nat i = written (Loop.publish_program s inp button tv) (Z.to_nat i).
Proof.
  intros Hlen H1 H2 Hi.
  destruct (handler_runs_keep _ _ H1) as [Hl1 _].
  destruct (handler_runs_keep _ _ H2) as [_ Hk2].
  rewrite Hk2 by exact Hi.
  rewrite run_lookup.
  - destruct (publish_writes_multi_byte s inp button tv i Hi) as [v ->]. reflexivity.
  - rewrite Hl1, Hlen. apply multi_byte_cases in Hi.
    unfold I2C_REGISTERS_SIZE. lia.
Qed.

End Quiet_handler.

(** C9. The main loop runs its register refresh while the bus handler may
    run between any two of its instructions whenever ITEVTEN is set. At
    every point where the handler can run, the refresh has either not
    started or is complete: the register file the handler finds is the
    result of handler runs alone, or of handler runs, then the whole
    refresh, then handler runs. So when the handler itself leaves the
    version and touch-delta registers alone, it finds all twelve of them
    as they were before the refresh or all twelve as the refresh writes
    them, never a mixture. *)
Theorem C9_register_refresh_is_indivisible
    (handler : list Z -> list Z -> Prop) (s : state) (inp : tick_input)
    (button : bool) (tv : list Z) (regs0 : list Z) (m : Preempt.machine) :
  let prog := Loop.publish_program s inp button tv in
  Preempt.steps handler (Preempt.mkMachine regs0 true prog) m ->
  Preempt.m_itevten m = true ->
  ((Preempt.m_todo m = prog /\ handler_runs handler regs0 (Preempt.m_regs m))
   \/ (Preempt.m_todo m = []
       /\ exists r1, handler_runs handler regs0 r1
            /\ handler_runs handler (fst (Loop.run prog (r1, true))) (Preempt.m_regs m)))
  /\ (length regs0 = I2C_REGISTERS_SIZE ->
      (forall r r', handler r r' ->
         length r' = length r
         /\ forall i, Preempt.multi_byte i = true -> r' !! Z.to_nat i = r !! Z.to_nat i) ->
      (forall i, Preempt.multi_byte i = true ->
         Preempt.m_regs m !! Z.to_nat i = regs0 !! Z.to_nat i)
      \/ (forall i, Preempt.multi_byte i = true ->
            Preempt.m_regs m !! Z.to_nat i = written prog (Z.to_nat i))).
Proof.
  intros prog Hsteps Hen.
  destruct (publish_program_shape s inp button tv) as [Hstores Hshape].
  fold prog in Hshape.
  assert (Hwhole :
    (Preempt.m_todo m = prog /\ handler_runs handler regs0 (Preempt.m_regs m))
    \/ (Preempt.m_todo m = []
        /\ exists r1, handler_runs handler regs0 r1
             /\ handler_runs handler (fst (Loop.run prog (r1, true))) (Preempt.m_regs m))).
  { rewrite Hshape in *.
    apply (handler_sees_whole_block handler _ Hstores regs0 m Hsteps Hen). }
  split; [exact Hwhole |].
  intros Hlen Hkeeps.
  destruct Hwhole as [[_ Hruns] | [_ (r1 & Hr1 & Hr2)]].
  - left. intros i Hi.
    destruct (handler_runs_keep handler Hkeeps _ _ Hruns) as [_ Hk]. apply Hk, Hi.
  - right. intros i Hi.
    apply (published_multi_byte handler Hkeeps s inp button tv regs0 r1); assumption.
Qed.

Lemma steps_trans handler m1 m2 m3 :
  Preempt.steps handler m1 m2 -> Preempt.steps handler m2 m3 ->
  Preempt.steps handler m1 m3.
Proof.
  intros H12 H23. induction H23 as [m | m2 m3 m4 H23 IH Hstep]; [exact H12 |].
  eapply Preempt.steps_step; [apply IH; exact H12 | exact Hstep].
Qed.

Lemma host_sets_mode_2_keeps r r' :
  host_sets_mode_2 r r' ->
  length r' = length r
  /\ forall i, Preempt.multi_byte i = true -> r' !! Z.to_nat i = r !! Z.to_nat i.
Proof.
  unfold host_sets_mode_2. intros ->. split; [apply length_set |].
  intros i Hi. apply multi_byte_cases in Hi.
  unfold set, I2C_REG_MODE. apply list_lookup_insert_ne. lia.
Qed.

(** A host write lands before the refresh and another one after it; the
    handler then finds the version and the touch deltas of this pass. *)
Lemma C9_witness :
  let prog := Loop.publish_program Boot.power_on quiet false [2000; 0; 0; 0; 0] in
  let regs0 := i2c_registers Boot.power_on in
  exists m,
    Preempt.steps host_sets_mode_2 (Preempt.mkMachine regs0 true prog) m
    /\ Preempt.m_itevten m = true
    /\ Preempt.m_todo m = []
    /\ Preempt.m_regs m !! 5%nat = Some 2
    /\ forall i, Preempt.multi_byte i = true ->
         Preempt.m_regs m !! Z.to_nat i = written prog (Z.to_nat i).
Proof.
  intros prog regs0.
  pose (r1 := set regs0 I2C_REG_MODE 2).
  pose (m := Preempt.mkMachine (set (fst (Loop.run prog (r1, true))) I2C_REG_MODE 2) true []).
  assert (Hs : Preempt.steps host_sets_mode_2 (Preempt.mkMachine regs0 true prog) m).
  { eapply Preempt.steps_step.
    - eapply steps_trans.
      + eapply Preempt.steps_step; [apply Preempt.steps_refl |].
        apply (Preempt.step_handler host_sets_mode_2 regs0 r1 prog). reflexivity.
      + pose proof (steps_main host_sets_mode_2 prog [] r1 true) as H.
        rewrite app_nil_r in H. exact H.
    - apply (Preempt.step_handler host_sets_mode_2
               (fst (Loop.run prog (r1, true))) _ []). reflexivity. }
  exists m. split; [exact Hs |]. split; [reflexivity |].
  split; [reflexivity |]. split; [reflexivity |].
  destruct (C9_register_refresh_is_indivisible host_sets_mode_2 Boot.power_on quiet
              false [2000; 0; 0; 0; 0] regs0 m Hs eq_refl) as [_ Hbytes].
  destruct (Hbytes eq_refl host_sets_mode_2_keeps) as [Hold | Hnew]; [| exact Hnew].
  specialize (Hold 0 eq_refl). vm_compute in Hold. discriminate Hold.
Defined.

(** * Further properties of the firmware *)

(** Case analysis on a list of known length. *)
Ltac explode l H :=
  repeat (destruct l as [| ? l]; cbn [length] in H;
          [try discriminate H | try discriminate H; try apply Nat.succ_inj in H]).

Lemma u8_range x : is_u8 (u8 x).
Proof. unfold is_u8, u8. pose proof (Z.mod_pos_bound x 256). lia. Qed.

Lemma u8_small x : is_u8 x -> u8 x = x.
Proof. unfold is_u8, u8. intros H. apply Z.mod_small. lia. Qed.

(** ** The serializer on a slice of an array *)

Lemma load_inside mem i :
  0 <= i < Z.of_nat (length mem) -> load mem i = mem !! Z.to_nat i.
Proof.
  intros Hi. unfold load.
  destruct (Z.leb_spec 0 i); [| lia].
  destruct (Z.ltb_spec i (Z.of_nat (length mem))); [| lia]. reflexivity.
Qed.

Lemma write_addressable_leds_slice mem base len :
  0 <= base -> 0 <= len <= 255 -> base + len <= Z.of_nat (length mem) ->
  Leds.write_addressable_leds mem base len
  = Some ([IrqDisable]
          ++ flat_map (fun b => Leds.send_bits b 8)
               (firstn (Z.to_nat len) (skipn (Z.to_nat base) mem))
          ++ [IrqEnable]).
Proof.
  intros Hbase Hlen Hfit. unfold Leds.write_addressable_leds, u8.
  rewrite Z.mod_small by lia.
  set (vals := firstn (Z.to_nat len) (skipn (Z.to_nat base) mem)).
  assert (Hvals : length vals = Z.to_nat len).
  { subst vals. rewrite length_firstn, length_skipn. lia. }
  rewrite <- Hvals. rewrite (send_bytes_loads mem base vals 0); [reflexivity |].
  intros j Hj. rewrite load_inside by lia.
  subst vals. rewrite lookup_take_lt by lia. rewrite lookup_drop.
  f_equal. lia.
Qed.

Lemma Forall_is_u8_slice (mem : list Z) n k :
  Forall is_u8 mem -> Forall is_u8 (firstn n (skipn k mem)).
Proof. intros H. apply Forall_take, Forall_drop, H. Qed.

(** X1. Whatever slice of an array of bytes the serializer is pointed at
    (inside the array, at most 255 bytes), decoding the pulses it sends,
    eight per byte and most significant bit first, gives back exactly the
    bytes of the slice in order. *)
Theorem X1_wire_bytes_round_trip (mem : list Z) (base len : Z) :
  Forall is_u8 mem ->
  0 <= base -> 0 <= len <= 255 -> base + len <= Z.of_nat (length mem) ->
  exists tr,
    Leds.write_addressable_leds mem base len = Some tr
    /\ Leds.wire_bytes tr = firstn (Z.to_nat len) (skipn (Z.to_nat base) mem).
Proof.
  intros Hu8 Hbase Hlen Hfit. eexists. split.
  - apply write_addressable_leds_slice; assumption.
  - apply wire_bytes_frame, Forall_is_u8_slice, Hu8.
Qed.

Lemma X1_witness :
  exists tr,
    Leds.write_addressable_leds [9; 165; 0; 255; 7] 1 3 = Some tr
    /\ Leds.wire_bytes tr = [165; 0; 255].
Proof.
  apply (X1_wire_bytes_round_trip [9; 165; 0; 255; 7] 1 3).
  - unfold is_u8. repeat constructor; lia.
  - lia.
  - lia.
  - cbn. lia.
Defined.

(** X2. For a pointer into an array and a length of 0 to 255, the
    serializer stays inside the array exactly when the length is 0 or the
    last byte it reads lies in the array; with length 0 it only switches
    the bus interrupt off and on. *)
Theorem X2_serializer_bounds (mem : list Z) (base len : Z) :
  0 <= base -> 0 <= len <= 255 ->
  (is_Some (Leds.write_addressable_leds mem base len)
   <-> len = 0 \/ base + len <= Z.of_nat (length mem))
  /\ Leds.write_addressable_leds mem base 0 = Some [IrqDisable; IrqEnable].
Proof.
  intros Hbase Hlen. split; [| reflexivity]. split.
  - intros Hsome.
    destruct (Z.eq_dec len 0) as [| Hne]; [left; assumption | right].
    destruct (Z_le_gt_dec (base + len) (Z.of_nat (length mem))) as [| Hout];
      [assumption | exfalso].
    unfold Leds.write_addressable_leds, u8 in Hsome.
    rewrite Z.mod_small in Hsome by lia.
    destruct (Z.to_nat len) as [| k] eqn:Hk; [lia |].
    rewrite (send_bytes_outside mem base 0 k) in Hsome by lia.
    destruct Hsome as [tr Htr]. discriminate Htr.
  - intros [-> | Hfit]; [eexists; reflexivity |].
    rewrite write_addressable_leds_slice by assumption. eexists. reflexivity.
Qed.

Lemma X2_witness :
  (is_Some (Leds.write_addressable_leds [1; 2; 3] 1 2)
   <-> 2 = 0 \/ 1 + 2 <= Z.of_nat (length [1; 2; 3]))
  /\ Leds.write_addressable_leds [1; 2; 3] 1 0 = Some [IrqDisable; IrqEnable].
Proof. apply (X2_serializer_bounds [1; 2; 3] 1 2); lia. Defined.

Lemma send_bits_no_irq b : forallb (fun e => negb (is_irq e)) (Leds.send_bits b 8) = true.
Proof.
  unfold Leds.send_bits, Leds.send_bit.
  repeat match goal with
         | |- context [Leds.bit_set ?x ?y] => destruct (Leds.bit_set x y)
         end; reflexivity.
Qed.

Lemma frame_no_irq data :
  forallb (fun e => negb (is_irq e)) (flat_map (fun b => Leds.send_bits b 8) data) = true.
Proof.
  induction data as [| b data IH]; [reflexivity |].
  cbn [flat_map]. rewrite forallb_app, send_bits_no_irq, IH. reflexivity.
Qed.

Lemma pulses_of_frame data :
  length (flat_map (fun b => map pulse_of (Leds.msb_first b)) data) = (8 * length data)%nat.
Proof.
  induction data as [| b data IH]; [reflexivity |].
  cbn [flat_map length]. rewrite length_app, IH.
  unfold Leds.msb_first. cbn [map length]. lia.
Qed.

(** X3. Every transmission that stays inside its array switches the bus
    event interrupt off first and on again last and touches it nowhere in
    between, and it puts exactly eight pulses per byte on the LED pin. *)
Theorem X3_transmission_runs_with_interrupt_off (mem : list Z) (base len : Z) :
  0 <= base -> 0 <= len <= 255 -> base + len <= Z.of_nat (length mem) ->
  exists body,
    Leds.write_addressable_leds mem base len = Some ([IrqDisable] ++ body ++ [IrqEnable])
    /\ forallb (fun e => negb (is_irq e)) body = true
    /\ length (Leds.high_durations None ([IrqDisable] ++ body ++ [IrqEnable]))
       = (8 * Z.to_nat len)%nat.
Proof.
  intros Hbase Hlen Hfit. eexists. split; [| split].
  - apply write_addressable_leds_slice; assumption.
  - apply frame_no_irq.
  - cbn [app Leds.high_durations]. rewrite high_durations_frame.
    cbn [Leds.high_durations]. rewrite app_nil_r, pulses_of_frame.
    rewrite length_firstn, length_skipn. lia.
Qed.

Lemma X3_witness :
  exists body,
    Leds.write_addressable_leds [9; 165; 0; 255; 7] 1 3
    = Some ([IrqDisable] ++ body ++ [IrqEnable])
    /\ forallb (fun e => negb (is_irq e)) body = true
    /\ length (Leds.high_durations None ([IrqDisable] ++ body ++ [IrqEnable]))
       = (8 * Z.to_nat 3)%nat.
Proof.
  apply (X3_transmission_runs_with_interrupt_off [9; 165; 0; 255; 7] 1 3); cbn; lia.
Defined.

(** ** The scanner: fading, bounds and period *)

Lemma decay_all_map d :
  length d = LED_EFFECT_DATA_SIZE -> Scanner.decay_all d = map Scanner.decay d.
Proof.
  intros Hlen. unfold LED_EFFECT_DATA_SIZE in Hlen. explode d Hlen. reflexivity.
Qed.

Lemma decay_byte v : is_u8 v -> Scanner.decay v = Z.max (v - 10) 0.
Proof.
  unfold is_u8, Scanner.decay, u8. intros Hv.
  destruct (Z.ltb_spec 10 v); [rewrite Z.mod_small by lia |]; lia.
Qed.

Lemma decay_is_u8 v : is_u8 (Scanner.decay v).
Proof.
  unfold Scanner.decay. destruct (10 <? v); [apply u8_range | unfold is_u8; lia].
Qed.

Lemma ramp_is_u8 v : is_u8 (Scanner.ramp v).
Proof.
  unfold Scanner.ramp. destruct (v <? 215); [apply u8_range | unfold is_u8; lia].
Qed.

Lemma get_set_other d i j v :
  0 <= i -> 0 <= j -> i <> j -> get (set d i v) j = get d j.
Proof.
  intros Hi Hj Hne. unfold get, set.
  rewrite list_lookup_insert_ne by lia. reflexivity.
Qed.

Lemma get_set_same d i v :
  0 <= i < Z.of_nat (length d) -> get (set d i v) i = v.
Proof.
  intros Hi. unfold get, set. rewrite list_lookup_insert_eq by lia. reflexivity.
Qed.

Lemma get_map f (d : list Z) k :
  0 <= k < Z.of_nat (length d) -> get (map f d) k = f (get d k).
Proof.
  intros Hk. unfold get. rewrite list_lookup_fmap.
  destruct (lookup_lt_is_Some_2 d (Z.to_nat k) ltac:(lia)) as [x ->]. reflexivity.
Qed.

Lemma frame_ok_set d i v : frame_ok d -> is_u8 v -> frame_ok (set d i v).
Proof.
  intros [Hlen Hall] Hv. split; [rewrite length_set; exact Hlen |].
  unfold set. apply Forall_insert; assumption.
Qed.

Lemma knightrider_step_leds color s :
  led_effect_data (Scanner.knightrider_step color s)
  = Scanner.ramp_head (knightrider_led (Scanner.knightrider_step color s)) color
      (Scanner.decay_all (led_effect_data s)).
Proof.
  unfold Scanner.knightrider_step.
  destruct (Scanner.advance _ _ _ _) as [[led value] direction]. reflexivity.
Qed.

Lemma frame_ok_decay_all d : frame_ok d -> frame_ok (Scanner.decay_all d).
Proof.
  intros [Hlen Hall]. rewrite decay_all_map by exact Hlen.
  split; [rewrite length_map; exact Hlen |].
  apply Forall_fmap, Forall_forall. intros v _. apply decay_is_u8.
Qed.

Lemma frame_ok_knightrider_step color s :
  frame_ok (led_effect_data s) ->
  frame_ok (led_effect_data (Scanner.knightrider_step color s)).
Proof.
  intros Hok. rewrite knightrider_step_leds. unfold Scanner.ramp_head.
  apply frame_ok_set; [apply frame_ok_decay_all, Hok | apply ramp_is_u8].
Qed.

(** X4. One scanner step on a 15-byte buffer leaves a 15-byte buffer in
    which every byte other than the head's channel is the old byte less
    10, and 0 where the old byte was 10 or less: no byte goes below 0 or
    wraps, and only the head's byte can rise. *)
Theorem X4_scanner_step_fades_all_but_head (color : Z) (s : state) :
  frame_ok (led_effect_data s) ->
  0 <= color ->
  0 <= knightrider_led (Scanner.knightrider_step color s) ->
  let s' := Scanner.knightrider_step color s in
  frame_ok (led_effect_data s')
  /\ forall k, 0 <= k < 15 -> k <> knightrider_led s' * 3 + color ->
       get (led_effect_data s') k = Z.max (get (led_effect_data s) k - 10) 0.
Proof.
  intros Hok Hcolor Hled s'. split; [apply frame_ok_knightrider_step, Hok |].
  intros k Hk Hne. subst s'. rewrite knightrider_step_leds.
  unfold Scanner.ramp_head. rewrite get_set_other by lia.
  destruct Hok as [Hlen Hall]. rewrite decay_all_map by exact Hlen.
  unfold LED_EFFECT_DATA_SIZE in Hlen.
  rewrite get_map by lia. apply decay_byte.
  unfold get. destruct (lookup_lt_is_Some_2 (led_effect_data s) (Z.to_nat k) ltac:(lia))
    as [x Hx]. rewrite Hx. cbn [default].
  rewrite Forall_forall in Hall. apply Hall.
  apply list_elem_of_lookup. eauto.
Qed.

Lemma X4_witness :
  let s := scan [(1, 255); (1, 255); (1, 255)] Boot.power_on in
  let s' := Scanner.knightrider_step 1 s in
  frame_ok (led_effect_data s')
  /\ forall k, 0 <= k < 15 -> k <> knightrider_led s' * 3 + 1 ->
       get (led_effect_data s') k = Z.max (get (led_effect_data s) k - 10) 0.
Proof.
  apply (X4_scanner_step_fades_all_but_head 1
           (scan [(1, 255); (1, 255); (1, 255)] Boot.power_on)).
  - split; [reflexivity |]. vm_compute. repeat constructor; discriminate.
  - lia.
  - vm_compute. discriminate.
Defined.

Lemma advance_moves_one speed led value (direction : bool) :
  (direction = false /\ 0 <= led <= 3) \/ (direction = true /\ 1 <= led <= 4) ->
  let '(led', _, _) := Scanner.advance speed led value direction in
  0 <= led' <= 4 /\ -1 <= led' - led <= 1.
Proof.
  intros Hinv. unfold Scanner.advance, u8.
  destruct (Z.ltb_spec (255 - speed) value); [| lia].
  destruct Hinv as [[-> Hled] | [-> Hled]]; cbn [negb];
    rewrite Z.mod_small by lia; lia.
Qed.

(** X5. From power-on, under any run of scanner steps and host-written
    speeds, a step moves the head by at most one LED, and the byte it
    ramps, [led_effect_data[knightrider_led * 3 + color]] for a channel 0,
    1 or 2, is one of the 15 bytes of the buffer. *)
Theorem X5_scanner_head_index_in_buffer
    (inputs : list (Z * Z)) (color speed : Z) :
  0 <= color <= 2 ->
  let s := with_speed (scan inputs Boot.power_on) speed in
  let s' := Scanner.knightrider_step color s in
  -1 <= knightrider_led s' - knightrider_led s <= 1
  /\ 0 <= knightrider_led s' * 3 + color < Z.of_nat LED_EFFECT_DATA_SIZE.
Proof.
  intros Hcolor s s'.
  assert (Hinv : scanner_inv s).
  { assert (H0 : scanner_inv Boot.power_on) by (left; cbn; lia).
    apply (scan_inv inputs) in H0. exact H0. }
  pose proof (knightrider_step_head color s) as Hhead. fold s' in Hhead.
  pose proof (advance_moves_one (knightrider_speed s) (knightrider_led s)
                (knightrider_value s) (knightrider_direction s) Hinv) as Hadv.
  destruct (Scanner.advance _ _ _ _) as [[led value] direction].
  injection Hhead as Hl _ _. rewrite Hl. unfold LED_EFFECT_DATA_SIZE. lia.
Qed.

Lemma X5_witness :
  let s := with_speed (scan [(1, 255); (1, 255)] Boot.power_on) 255 in
  let s' := Scanner.knightrider_step 1 s in
  -1 <= knightrider_led s' - knightrider_led s <= 1
  /\ 0 <= knightrider_led s' * 3 + 1 < Z.of_nat LED_EFFECT_DATA_SIZE.
Proof. apply (X5_scanner_head_index_in_buffer [(1, 255); (1, 255)] 1 255). lia. Defined.

Lemma scan_snoc inputs : forall s color speed,
  scan (inputs ++ [(color, speed)]) s
  = Scanner.knightrider_step color (with_speed (scan inputs s) speed).
Proof.
  induction inputs as [| [c sp] inputs IH]; intros s color speed; [reflexivity |].
  cbn [app scan]. apply IH.
Qed.

Lemma scan_repeat_succ color speed k s :
  scan (repeat (color, speed) (S k)) s
  = Scanner.knightrider_step color (with_speed (scan (repeat (color, speed) k) s) speed).
Proof.
  change (repeat (color, speed) (S k)) with ((color, speed) :: repeat (color, speed) k).
  rewrite repeat_cons. apply scan_snoc.
Qed.

Lemma scanner_waits color speed s :
  is_u8 speed -> knightrider_value s = 0 ->
  forall k : nat, Z.of_nat k <= 256 - speed ->
    let sk := scan (repeat (color, speed) k) s in
    knightrider_value sk = Z.of_nat k
    /\ knightrider_led sk = knightrider_led s
    /\ knightrider_direction sk = knightrider_direction s.
Proof.
  intros Hspeed Hzero. unfold is_u8 in Hspeed.
  induction k as [| k IH]; intros Hk; [cbn; auto |].
  cbv zeta. rewrite scan_repeat_succ.
  destruct IH as (Hv & Hl & Hd); [lia |].
  set (sk := scan (repeat (color, speed) k) s) in *.
  pose proof (knightrider_step_head color (with_speed sk speed)) as Hhead.
  cbn [with_speed knightrider_speed knightrider_led knightrider_value
       knightrider_direction] in Hhead.
  unfold Scanner.advance in Hhead. rewrite (u8_small speed) in Hhead by exact Hspeed.
  rewrite Hv in Hhead.
  destruct (Z.ltb_spec (255 - speed) (Z.of_nat k)); [lia |].
  injection Hhead as -> -> ->. unfold u16.
  rewrite Z.mod_small by lia. repeat split; [lia | exact Hl | exact Hd].
Qed.

(** X6. With the scanner speed register held at [speed] and the
    accumulator at 0, the head stays where it is for the next
    [256 - speed] steps while the accumulator counts them, and the step
    after those moves it one LED in its direction and clears the
    accumulator: the head advances once every [257 - speed] steps, so a
    larger speed value is a faster scanner. *)
Theorem X6_scanner_head_period (color speed : Z) (s : state) :
  is_u8 speed -> scanner_inv s -> knightrider_value s = 0 ->
  (forall k : nat, Z.of_nat k <= 256 - speed ->
     let sk := scan (repeat (color, speed) k) s in
     knightrider_value sk = Z.of_nat k
     /\ knightrider_led sk = knightrider_led s
     /\ knightrider_direction sk = knightrider_direction s)
  /\ (let s' := scan (repeat (color, speed) (Z.to_nat (257 - speed))) s in
      knightrider_value s' = 0
      /\ knightrider_led s'
         = if knightrider_direction s then knightrider_led s - 1 else knightrider_led s + 1).
Proof.
  intros Hspeed Hinv Hzero. split; [apply scanner_waits; assumption |].
  unfold is_u8 in Hspeed.
  replace (Z.to_nat (257 - speed)) with (S (Z.to_nat (256 - speed))) by lia.
  cbv zeta. rewrite scan_repeat_succ.
  destruct (scanner_waits color speed s Hspeed Hzero (Z.to_nat (256 - speed)))
    as (Hv & Hl & Hd); [lia |].
  set (sk := scan (repeat (color, speed) (Z.to_nat (256 - speed))) s) in *.
  pose proof (knightrider_step_head color (with_speed sk speed)) as Hhead.
  cbn [with_speed knightrider_speed knightrider_led knightrider_value
       knightrider_direction] in Hhead.
  unfold Scanner.advance in Hhead. rewrite (u8_small speed) in Hhead by exact Hspeed.
  rewrite Hv, Hl, Hd in Hhead.
  destruct (Z.ltb_spec (255 - speed) (Z.of_nat (Z.to_nat (256 - speed)))); [| lia].
  unfold scanner_inv in Hinv.
  destruct Hinv as [[Hdir Hled] | [Hdir Hled]]; rewrite Hdir in *; cbn [negb] in Hhead;
    injection Hhead as -> -> _; unfold u8; rewrite Z.mod_small by lia; split; reflexivity.
Qed.

Lemma X6_witness :
  (forall k : nat, Z.of_nat k <= 256 - 252 ->
     let sk := scan (repeat (1, 252) k) Boot.power_on in
     knightrider_value sk = Z.of_nat k
     /\ knightrider_led sk = knightrider_led Boot.power_on
     /\ knightrider_direction sk = knightrider_direction Boot.power_on)
  /\ (let s' := scan (repeat (1, 252) (Z.to_nat (257 - 252))) Boot.power_on in
      knightrider_value s' = 0 /\ knightrider_led s' = 1).
Proof.
  apply (X6_scanner_head_period 1 252 Boot.power_on).
  - unfold is_u8. lia.
  - left. cbn. lia.
  - reflexivity.
Defined.

(** ** The effect renderer *)

Lemma for_range_inv {A : Type} (P : A -> Prop) (body : Z -> A -> A) :
  (forall i a, P a -> P (body i a)) ->
  forall count i a, P a -> P (for_range i count body a).
Proof.
  intros Hbody. induction count as [| k IH]; intros i a Ha; [exact Ha |].
  cbn [for_range]. apply IH, Hbody, Ha.
Qed.

Lemma land_255_is_u8 x : is_u8 (Z.land x 255).
Proof.
  unfold is_u8. change 255 with (Z.ones 8) at 1 2.
  rewrite Z.land_ones by lia. pose proof (Z.mod_pos_bound x (2 ^ 8)). lia.
Qed.

Lemma frame_ok_assign_from vals : forall i d,
  Forall is_u8 vals -> frame_ok d -> frame_ok (assign_from i vals d).
Proof.
  induction vals as [| v vals IH]; intros i d Hvals Hd; [exact Hd |].
  cbn [assign_from]. inversion Hvals as [| ? ? Hv Hrest]; subst.
  apply IH; [exact Hrest | apply frame_ok_set; assumption].
Qed.

Lemma assign_from_all vals d :
  length vals = LED_EFFECT_DATA_SIZE -> length d = LED_EFFECT_DATA_SIZE ->
  assign_from 0 vals d = vals.
Proof.
  unfold LED_EFFECT_DATA_SIZE. intros Hv Hd.
  explode vals Hv. explode d Hd. reflexivity.
Qed.

Section Renderer.

Variable ehsv : Z -> Z -> Z -> Z.

Lemma frame_ok_social_battery_led level tv i d :
  frame_ok d -> frame_ok (Loop.social_battery_led level tv i d).
Proof.
  intros Hd. unfold Loop.social_battery_led.
  destruct (level <? i), (2000 <? get tv i);
    repeat apply frame_ok_set; try exact Hd; try apply u8_range; unfold is_u8; lia.
Qed.

Lemma frame_ok_rainbow_led h speed led d :
  frame_ok d -> frame_ok (Loop.rainbow_led ehsv h speed led d).
Proof.
  intros Hd. unfold Loop.rainbow_led.
  repeat apply frame_ok_set; try exact Hd; apply land_255_is_u8.
Qed.

Lemma frame_ok_render tv s :
  frame_ok (led_effect_data s) -> frame_ok (led_effect_data (Loop.render ehsv tv s)).
Proof.
  intros Hd. unfold Loop.render.
  repeat match goal with
         | |- context [match ?x with _ => _ end] => destruct x
         end;
    cbn [Loop.with_leds led_effect_data];
    first [ exact Hd
          | apply frame_ok_knightrider_step, Hd
          | apply for_range_inv; [intros; apply frame_ok_social_battery_led; assumption | exact Hd]
          | apply for_range_inv; [intros; apply frame_ok_rainbow_led; assumption | exact Hd]
          | apply frame_ok_assign_from;
            [unfold is_u8; repeat constructor; lia | exact Hd] ].
Qed.

(** What the renderer leaves alone in every mode. *)
Lemma render_keeps tv s :
  let s' := Loop.render ehsv tv s in
  system_mode s' = system_mode s
  /\ social_level s' = social_level s
  /\ button_enabled s' = button_enabled s
  /\ rainbow_speed s' = rainbow_speed s
  /\ knightrider_speed s' = knightrider_speed s
  /\ baseline s' = baseline s
  /\ prev_button s' = prev_button s.
Proof.
  cbv zeta. unfold Loop.render.
  repeat match goal with
         | |- context [match ?x with _ => _ end] => destruct x eqn:?
         end;
    try (repeat split; first [reflexivity | assumption]);
    unfold Scanner.knightrider_step;
    destruct (Scanner.advance _ _ _ _) as [[led value] direction];
    repeat split; first [reflexivity | assumption].
Qed.

Lemma sense_eq inp s :
  let tl := Loop.touch_update (raw_touch_value inp) (baseline s) (social_level s) in
  let button := negb (pin_button inp) in
  let s1 := mkState (i2c_registers s) (led_effect_data s) (snd tl)
              (Loop.button_update button (prev_button s) (button_enabled s) (system_mode s))
              (button_enabled s) (rainbow_speed s) (knightrider_speed s)
              (knightrider_led s) (knightrider_value s) (knightrider_direction s)
              (hue s) (baseline s) button in
  Loop.sense inp s
  = (mkState (Loop.publish_registers s1 inp button (fst tl)) (led_effect_data s)
             (snd tl) (system_mode s1) (button_enabled s) (rainbow_speed s)
             (knightrider_speed s) (knightrider_led s) (knightrider_value s)
             (knightrider_direction s) (hue s) (baseline s) button,
     fst tl).
Proof.
  cbv zeta. unfold Loop.sense.
  destruct (Loop.touch_update _ _ _) as [tv level]. reflexivity.
Qed.

Lemma tick_eq inp s :
  Loop.tick ehsv inp s
  = (Loop.render ehsv (snd (Loop.sense inp s)) (fst (Loop.sense inp s)),
     Loop.transmit (Loop.render ehsv (snd (Loop.sense inp s)) (fst (Loop.sense inp s)))).
Proof. unfold Loop.tick. destruct (Loop.sense inp s) as [s1 tv]. reflexivity. Qed.

Lemma sense_leds inp s : led_effect_data (fst (Loop.sense inp s)) = led_effect_data s.
Proof. rewrite sense_eq. reflexivity. Qed.

End Renderer.

(** X7. In every pass that ends in a mode other than 0, whatever the
    mode (1 to 7 or a value the host wrote that selects no effect), the
    effect buffer stays 15 bytes and the pass transmits it: the bytes
    decoded from the LED pin are the bytes of the buffer after the pass,
    in order. *)
Theorem X7_effect_modes_transmit_the_buffer
    (ehsv : Z -> Z -> Z -> Z) (inp : tick_input) (s : state) :
  frame_ok (led_effect_data s) ->
  0 < system_mode (fst (Loop.tick ehsv inp s)) ->
  frame_ok (led_effect_data (fst (Loop.tick ehsv inp s)))
  /\ exists tr, snd (Loop.tick ehsv inp s) = Some tr
       /\ Leds.wire_bytes tr = led_effect_data (fst (Loop.tick ehsv inp s)).
Proof.
  intros Hok Hmode. rewrite tick_eq in *. cbn [fst snd] in *.
  set (s2 := Loop.render ehsv (snd (Loop.sense inp s)) (fst (Loop.sense inp s))) in *.
  assert (Hok2 : frame_ok (led_effect_data s2)).
  { subst s2. apply frame_ok_render. rewrite sense_leds. exact Hok. }
  split; [exact Hok2 |].
  destruct Hok2 as [Hlen Hall]. unfold LED_EFFECT_DATA_SIZE in Hlen.
  pose proof (write_addressable_leds_all (led_effect_data s2) ltac:(lia)) as Htr.
  rewrite Hlen in Htr. change (Z.of_nat 15) with 15 in Htr.
  unfold Loop.transmit.
  destruct (Z.eqb_spec (system_mode s2) 0); [lia |].
  destruct (Z.ltb_spec 0 (system_mode s2)); [| lia].
  rewrite Htr. cbn [mbind option_bind app]. eexists. split; [reflexivity |].
  apply wire_bytes_frame, Hall.
Qed.

Lemma X7_witness :
  let s := Bus.host_write I2C_REG_MODE [3] Boot.power_on in
  frame_ok (led_effect_data (fst (Loop.tick (fun _ _ _ => 0) quiet s)))
  /\ exists tr, snd (Loop.tick (fun _ _ _ => 0) quiet s) = Some tr
       /\ Leds.wire_bytes tr = led_effect_data (fst (Loop.tick (fun _ _ _ => 0) quiet s)).
Proof.
  apply (X7_effect_modes_transmit_the_buffer (fun _ _ _ => 0) quiet
           (Bus.host_write I2C_REG_MODE [3] Boot.power_on)).
  - split; [reflexivity |]. vm_compute. repeat constructor; discriminate.
  - vm_compute. reflexivity.
Defined.

(** X8. Mode 1 on a 15-byte buffer: an LED above the social level is
    dark in green and red; an LED at or below it shows green
    [50 * level] and red [255 - 50 * level], both cut to 8 bits (exact
    for levels 0 to 5); blue is 255 on the LEDs whose touch delta is
    above 2000 in this pass and 0 on the others. Nothing of the previous
    buffer survives. *)
Theorem X8_social_battery_frame
    (ehsv : Z -> Z -> Z -> Z) (tv : list Z) (s : state) :
  system_mode s = 1 ->
  length (led_effect_data s) = LED_EFFECT_DATA_SIZE ->
  let level := social_level s in
  let d := led_effect_data (Loop.render ehsv tv s) in
  (forall i, 0 <= i < 5 ->
     get d (i * 3 + GREEN) = (if level <? i then 0 else u8 (50 * level))
     /\ get d (i * 3 + RED) = (if level <? i then 0 else u8 (255 - 50 * level))
     /\ get d (i * 3 + BLUE) = (if 2000 <? get tv i then 255 else 0))
  /\ (0 <= level <= 5 -> u8 (50 * level) = 50 * level
                         /\ u8 (255 - 50 * level) = 255 - 50 * level).
Proof.
  intros Hmode Hlen level d. split.
  - intros i Hi. subst d. unfold Loop.render. rewrite Hmode.
    cbn [Loop.with_leds led_effect_data]. fold level. clearbody level.
    unfold LED_EFFECT_DATA_SIZE in Hlen.
    destruct (led_effect_data s) as [| z0 l]; [discriminate |]. explode l Hlen.
    unfold for_range, Loop.social_battery_led.
    change (0 + 1 + 1 + 1 + 1) with 4. change (0 + 1 + 1 + 1) with 3.
    change (0 + 1 + 1) with 2. change (0 + 1) with 1.
    assert (Hc : i = 0 \/ i = 1 \/ i = 2 \/ i = 3 \/ i = 4) by lia.
    destruct Hc as [-> | [-> | [-> | [-> | ->]]]];
      destruct (level <? 0), (level <? 1), (level <? 2), (level <? 3), (level <? 4);
      repeat split; reflexivity.
  - intros Hl. unfold u8. rewrite !Z.mod_small by lia. split; reflexivity.
Qed.

Lemma X8_witness :
  let s := Bus.host_write I2C_REG_SOCIAL_LEVEL [2] (Bus.host_write I2C_REG_MODE [1] Boot.power_on) in
  let d := led_effect_data (Loop.render (fun _ _ _ => 0) [0; 0; 2500; 0; 0] s) in
  (forall i, 0 <= i < 5 ->
     get d (i * 3 + GREEN) = (if 2 <? i then 0 else u8 (50 * 2))
     /\ get d (i * 3 + RED) = (if 2 <? i then 0 else u8 (255 - 50 * 2))
     /\ get d (i * 3 + BLUE) = (if 2000 <? get [0; 0; 2500; 0; 0] i then 255 else 0))
  /\ (0 <= 2 <= 5 -> u8 (50 * 2) = 50 * 2 /\ u8 (255 - 50 * 2) = 255 - 50 * 2).
Proof.
  apply (X8_social_battery_frame (fun _ _ _ => 0) [0; 0; 2500; 0; 0]
           (Bus.host_write I2C_REG_SOCIAL_LEVEL [2]
              (Bus.host_write I2C_REG_MODE [1] Boot.power_on))); reflexivity.
Defined.

(** X9. Modes 3 and 4 on a 15-byte buffer overwrite every byte: the
    buffer becomes the mode's fixed palette whatever an earlier mode left
    in it, and rendering again changes nothing. *)
Theorem X9_palette_modes_overwrite_the_buffer
    (ehsv : Z -> Z -> Z -> Z) (tv tv' : list Z) (s : state) :
  length (led_effect_data s) = LED_EFFECT_DATA_SIZE ->
  (system_mode s = 3 -> led_effect_data (Loop.render ehsv tv s) = palette_3)
  /\ (system_mode s = 4 -> led_effect_data (Loop.render ehsv tv s) = palette_4)
  /\ (system_mode s = 3 \/ system_mode s = 4 ->
      Loop.render ehsv tv' (Loop.render ehsv tv s) = Loop.render ehsv tv s).
Proof.
  intros Hlen.
  assert (H3 : system_mode s = 3 -> Loop.render ehsv tv s = Loop.with_leds s palette_3 (hue s)).
  { intros Hm. unfold Loop.render. rewrite Hm.
    rewrite assign_from_all by (reflexivity || exact Hlen). reflexivity. }
  assert (H4 : system_mode s = 4 -> Loop.render ehsv tv s = Loop.with_leds s palette_4 (hue s)).
  { intros Hm. unfold Loop.render. rewrite Hm.
    rewrite assign_from_all by (reflexivity || exact Hlen). reflexivity. }
  split; [| split].
  - intros Hm. rewrite (H3 Hm). reflexivity.
  - intros Hm. rewrite (H4 Hm). reflexivity.
  - intros [Hm | Hm].
    + rewrite (H3 Hm). unfold Loop.render at 1. cbn [Loop.with_leds system_mode].
      rewrite Hm. reflexivity.
    + rewrite (H4 Hm). unfold Loop.render at 1. cbn [Loop.with_leds system_mode].
      rewrite Hm. reflexivity.
Qed.

Lemma X9_witness :
  led_effect_data (Loop.render (fun _ _ _ => 0) [0; 0; 0; 0; 0]
                     (Bus.host_write I2C_REG_MODE [3] Boot.power_on)) = palette_3
  /\ led_effect_data (Loop.render (fun _ _ _ => 0) [0; 0; 0; 0; 0]
                        (Bus.host_write I2C_REG_MODE [4] Boot.power_on)) = palette_4.
Proof.
  split.
  - apply (X9_palette_modes_overwrite_the_buffer (fun _ _ _ => 0) [0; 0; 0; 0; 0]
             [0; 0; 0; 0; 0] (Bus.host_write I2C_REG_MODE [3] Boot.power_on));
      reflexivity.
  - apply (X9_palette_modes_overwrite_the_buffer (fun _ _ _ => 0) [0; 0; 0; 0; 0]
             [0; 0; 0; 0; 0] (Bus.host_write I2C_REG_MODE [4] Boot.power_on));
      reflexivity.
Defined.

(** ** The register file after a pass *)

Lemma publish_get s1 inp button tv (k : Z) v :
  (Z.to_nat k < length (i2c_registers s1))%nat ->
  written (Loop.publish_program s1 inp button tv) (Z.to_nat k) = Some v ->
  get (Loop.publish_registers s1 inp button tv) k = v.
Proof.
  intros Hk Hw. unfold get, Loop.publish_registers.
  rewrite run_lookup by exact Hk. rewrite Hw. reflexivity.
Qed.

Lemma publish_untouched s1 inp button tv (k : nat) :
  written (Loop.publish_program s1 inp button tv) k = None ->
  Loop.publish_registers s1 inp button tv !! k = i2c_registers s1 !! k.
Proof.
  intros Hw. unfold Loop.publish_registers.
  destruct (Nat.lt_ge_cases k (length (i2c_registers s1))) as [Hin | Hout].
  - rewrite run_lookup by exact Hin. rewrite Hw. reflexivity.
  - rewrite !lookup_ge_None_2; [reflexivity | lia |]. rewrite length_run. lia.
Qed.

Lemma tick_state ehsv inp s :
  fst (Loop.tick ehsv inp s)
  = Loop.render ehsv (snd (Loop.sense inp s)) (fst (Loop.sense inp s)).
Proof. rewrite tick_eq. reflexivity. Qed.

Lemma refresh_mirrors_state (ehsv : Z -> Z -> Z -> Z)
    (inp : tick_input) (s : state) :
  length (i2c_registers s) = I2C_REGISTERS_SIZE ->
  let s' := fst (Loop.tick ehsv inp s) in
  let r := i2c_registers s' in
  get r I2C_REG_FW_VERSION_0 = 1
  /\ get r I2C_REG_FW_VERSION_1 = 0
  /\ get r I2C_REG_GPIO_INPUTS = Loop.read_other_inputs inp
  /\ get r I2C_REG_SOCIAL_LEVEL = social_level s'
  /\ get r I2C_REG_RAINBOW_SPEED = rainbow_speed s'
  /\ get r I2C_REG_KNIGHTRIDER_SPEED = knightrider_speed s'
  /\ get r I2C_REG_BUTTON_ENABLED = Z.b2z (button_enabled s')
  /\ length r = I2C_REGISTERS_SIZE
  /\ forall k : nat, k = 2%nat \/ k = 4%nat \/ k = 5%nat \/ (21 <= k)%nat ->
       r !! k = i2c_registers s !! k.
Proof.
  intros Hlen s' r. unfold I2C_REGISTERS_SIZE in *.
  assert (Hr : r = i2c_registers (fst (Loop.sense inp s))).
  { subst r s'. apply tick_registers. }
  destruct (render_keeps ehsv (snd (Loop.sense inp s)) (fst (Loop.sense inp s)))
    as (_ & Hlevel & Hen & Hrs & Hks & _ & _).
  rewrite <- tick_state in Hlevel, Hen, Hrs, Hks. fold s' in Hlevel, Hen, Hrs, Hks.
  rewrite Hlevel, Hen, Hrs, Hks, Hr. clear Hlevel Hen Hrs Hks Hr.
  rewrite sense_eq. cbv zeta.
  cbn [fst i2c_registers social_level button_enabled rainbow_speed knightrider_speed].
  repeat split;
    try (apply publish_get; [cbn [i2c_registers]; rewrite Hlen; apply Nat.ltb_lt; reflexivity | reflexivity]).
  - unfold Loop.publish_registers. rewrite length_run. exact Hlen.
  - intros k [-> | [-> | [-> | Hk]]];
      try (rewrite publish_untouched by reflexivity; reflexivity).
    rewrite publish_keeps_led_region by exact Hk. reflexivity.
Qed.

(** X10. After every pass over a 35-entry register file, the host finds
    firmware version 1 in registers 0 and 1 (low byte first), the four
    input pins in register 3, and in registers 16, 17, 18 and 20 the
    social level, the rainbow speed, the scanner speed and the button
    enable flag the firmware now works with. The pass never changes
    registers 2, 4 and 5 (GPIO mode, GPIO outputs, mode) nor any register
    from 21 on (the LED colours), and the file keeps its size. *)
Theorem X10_pass_publishes_and_spares (ehsv : Z -> Z -> Z -> Z)
    (inp : tick_input) (s : state) :
  length (i2c_registers s) = I2C_REGISTERS_SIZE ->
  let s' := fst (Loop.tick ehsv inp s) in
  let r := i2c_registers s' in
  get r I2C_REG_FW_VERSION_0 = 1
  /\ get r I2C_REG_FW_VERSION_1 = 0
  /\ get r I2C_REG_GPIO_INPUTS = Loop.read_other_inputs inp
  /\ get r I2C_REG_SOCIAL_LEVEL = social_level s'
  /\ get r I2C_REG_RAINBOW_SPEED = rainbow_speed s'
  /\ get r I2C_REG_KNIGHTRIDER_SPEED = knightrider_speed s'
  /\ get r I2C_REG_BUTTON_ENABLED = Z.b2z (button_enabled s')
  /\ length r = I2C_REGISTERS_SIZE
  /\ forall k : nat, k = 2%nat \/ k = 4%nat \/ k = 5%nat \/ (21 <= k)%nat ->
       r !! k = i2c_registers s !! k.
Proof. apply refresh_mirrors_state. Qed.

Lemma X10_witness :
  let s' := fst (Loop.tick (fun _ _ _ => 0) quiet Boot.power_on) in
  let r := i2c_registers s' in
  get r I2C_REG_FW_VERSION_0 = 1
  /\ get r I2C_REG_FW_VERSION_1 = 0
  /\ get r I2C_REG_GPIO_INPUTS = Loop.read_other_inputs quiet
  /\ get r I2C_REG_SOCIAL_LEVEL = social_level s'
  /\ get r I2C_REG_RAINBOW_SPEED = rainbow_speed s'
  /\ get r I2C_REG_KNIGHTRIDER_SPEED = knightrider_speed s'
  /\ get r I2C_REG_BUTTON_ENABLED = Z.b2z (button_enabled s')
  /\ length r = I2C_REGISTERS_SIZE
  /\ forall k : nat, k = 2%nat \/ k = 4%nat \/ k = 5%nat \/ (21 <= k)%nat ->
       r !! k = i2c_registers Boot.power_on !! k.
Proof.
  apply (X10_pass_publishes_and_spares (fun _ _ _ => 0) quiet Boot.power_on).
  reflexivity.
Defined.

Lemma touch_update_values raw base level :
  fst (Loop.touch_update raw base level)
  = [Loop.touch_delta raw base 0; Loop.touch_delta raw base 1;
     Loop.touch_delta raw base 2; Loop.touch_delta raw base 3;
     Loop.touch_delta raw base 4].
Proof. reflexivity. Qed.

Lemma s16_u16 x : -32768 <= x < 32768 -> s16 (u16 x) = x.
Proof.
  intros Hx. unfold s16, u16. rewrite Z.mod_mod by lia.
  destruct (Z_lt_le_dec x 0).
  - replace (x mod 65536) with (x + 65536)
      by (apply Z.mod_unique with (q := -1); lia).
    destruct (Z.ltb_spec (x + 65536) 32768); lia.
  - rewrite Z.mod_small by lia. destruct (Z.ltb_spec x 32768); lia.
Qed.

Lemma u16_bytes v : 0 <= v < 65536 -> u8 v + 256 * Z.shiftr v 8 = v.
Proof.
  intros Hv. unfold u8. rewrite Z.shiftr_div_pow2 by lia.
  change (2 ^ 8) with 256. pose proof (Z.div_mod v 256 ltac:(lia)). lia.
Qed.

(** X11. After every pass over a 35-entry register file, registers
    [6 + 2i] and [7 + 2i] hold the low and the high byte of the low 16
    bits of touch delta [i] of that pass. A host that reads the pair as a
    little-endian signed 16-bit number gets the delta itself whenever the
    delta lies in -32768..32767; a delta outside that range is cut to its
    low 16 bits. *)
Theorem X11_touch_delta_registers (ehsv : Z -> Z -> Z -> Z)
    (inp : tick_input) (s : state) (i : Z) :
  length (i2c_registers s) = I2C_REGISTERS_SIZE ->
  0 <= i < 5 ->
  let r := i2c_registers (fst (Loop.tick ehsv inp s)) in
  let delta := Loop.touch_delta (raw_touch_value inp) (baseline s) i in
  let lo := get r (I2C_REG_TOUCH0_0 + i * 2) in
  let hi := get r (I2C_REG_TOUCH0_0 + i * 2 + 1) in
  is_u8 lo /\ is_u8 hi
  /\ lo + 256 * hi = u16 delta
  /\ (-32768 <= delta < 32768 -> s16 (lo + 256 * hi) = delta).
Proof.
  intros Hlen Hi r delta lo hi. unfold I2C_REGISTERS_SIZE in Hlen.
  assert (Hv : 0 <= u16 delta < 65536) by (unfold u16; apply Z.mod_pos_bound; lia).
  assert (Hlo : lo = u8 (u16 delta) /\ hi = Z.shiftr (u16 delta) 8).
  { subst lo hi r. rewrite tick_registers, sense_eq. cbv zeta. cbn [fst].
    rewrite touch_update_values. subst delta.
    assert (Hc : i = 0 \/ i = 1 \/ i = 2 \/ i = 3 \/ i = 4) by lia.
    destruct Hc as [-> | [-> | [-> | [-> | ->]]]];
      (split;
       (apply publish_get;
        [cbn [i2c_registers]; rewrite Hlen; apply Nat.ltb_lt; reflexivity | reflexivity])). }
  destruct Hlo as [-> ->].
  split; [apply u8_range |]. split.
  - unfold is_u8. rewrite Z.shiftr_div_pow2 by lia. change (2 ^ 8) with 256.
    split; [apply Z.div_pos; lia |].
    assert (u16 delta / 256 < 256) by (apply Z.div_lt_upper_bound; lia). lia.
  - rewrite u16_bytes by exact Hv. split; [reflexivity |]. apply s16_u16.
Qed.

Lemma X11_witness :
  let inp := mkInput [5000; 100; 0; 0; 0] true true true true true in
  let s := fst (Loop.tick (fun _ _ _ => 0)
                  (mkInput [0; 300; 0; 0; 0] true true true true true) Boot.power_on) in
  let r := i2c_registers (fst (Loop.tick (fun _ _ _ => 0) inp s)) in
  let delta := Loop.touch_delta (raw_touch_value inp) (baseline s) 0 in
  let lo := get r (I2C_REG_TOUCH0_0 + 0 * 2) in
  let hi := get r (I2C_REG_TOUCH0_0 + 0 * 2 + 1) in
  is_u8 lo /\ is_u8 hi
  /\ lo + 256 * hi = u16 delta
  /\ (-32768 <= delta < 32768 -> s16 (lo + 256 * hi) = delta).
Proof.
  apply (X11_touch_delta_registers (fun _ _ _ => 0)
           (mkInput [5000; 100; 0; 0; 0] true true true true true)
           (fst (Loop.tick (fun _ _ _ => 0)
                   (mkInput [0; 300; 0; 0; 0] true true true true true) Boot.power_on)) 0).
  - reflexivity.
  - lia.
Defined.

(** X12. The input register value packs the four pins one per bit: bit
    0 is IO1, bit 1 is IO2, bit 2 is E1, bit 3 is E2, and nothing above
    bit 3 is ever set. *)
Theorem X12_read_other_inputs_bits (inp : tick_input) :
  let v := Loop.read_other_inputs inp in
  0 <= v <= 15
  /\ Z.testbit v 0 = pin_io1 inp
  /\ Z.testbit v 1 = pin_io2 inp
  /\ Z.testbit v 2 = pin_e1 inp
  /\ Z.testbit v 3 = pin_e2 inp.
Proof.
  destruct inp as [raw pb io1 io2 e1 e2]. unfold Loop.read_other_inputs.
  cbn [pin_io1 pin_io2 pin_e1 pin_e2].
  destruct io1, io2, e1, e2; repeat split; try reflexivity; vm_compute; discriminate.
Qed.

(** X13. When the bus handler runs [onWrite] right after a pass (the host
    wrote a register the firmware does not read back, or rewrote a value
    it already had), the social level, the two speeds and the button enable
    flag are what they were, but the mode becomes the content of the mode
    register, which no pass updates: a mode reached with the button, or the
    stand-alone default, lasts only until the next host write. *)
Theorem X13_onWrite_after_pass_resets_mode (ehsv : Z -> Z -> Z -> Z)
    (inp : tick_input) (s : state) :
  length (i2c_registers s) = I2C_REGISTERS_SIZE ->
  let s' := fst (Loop.tick ehsv inp s) in
  let s'' := fst (Bus.onWrite s') in
  social_level s'' = social_level s'
  /\ rainbow_speed s'' = rainbow_speed s'
  /\ knightrider_speed s'' = knightrider_speed s'
  /\ button_enabled s'' = button_enabled s'
  /\ system_mode s'' = get (i2c_registers s) I2C_REG_MODE
  /\ led_effect_data s'' = led_effect_data s'
  /\ i2c_registers s'' = i2c_registers s'.
Proof.
  intros Hlen s' s''.
  destruct (refresh_mirrors_state ehsv inp s Hlen)
    as (_ & _ & _ & Hl & Hr & Hk & He & _ & Hkeep).
  fold s' in Hl, Hr, Hk, He, Hkeep.
  subst s''. unfold Bus.onWrite.
  cbn [fst social_level rainbow_speed knightrider_speed button_enabled system_mode
       led_effect_data i2c_registers].
  rewrite Hl, Hr, Hk, He. repeat split.
  - destruct (button_enabled s'); reflexivity.
  - unfold get, I2C_REG_MODE. change (Z.to_nat 5) with 5%nat.
    rewrite (Hkeep 5%nat) by auto. reflexivity.
Qed.

Lemma X13_witness :
  let s := default Boot.power_on (fst <$> Boot.boot true true true [0; 0; 0; 0; 0]) in
  let s' := fst (Loop.tick (fun _ _ _ => 0) quiet s) in
  system_mode s' = 1 /\ system_mode (fst (Bus.onWrite s')) = 0.
Proof.
  split; [reflexivity |].
  destruct (X13_onWrite_after_pass_resets_mode (fun _ _ _ => 0) quiet
              (default Boot.power_on (fst <$> Boot.boot true true true [0; 0; 0; 0; 0])))
    as (_ & _ & _ & _ & Hmode & _); [vm_compute; reflexivity |].
  exact Hmode.
Defined.

(** ** The button *)

Lemma press_stays_in_range mode : 0 <= mode <= 7 -> 1 <= press mode <= 7.
Proof.
  intros Hm. unfold press, Loop.button_update, u8. cbn [andb negb].
  rewrite Z.mod_small by lia. destruct (Z.ltb_spec 7 (mode + 1)); lia.
Qed.

(** X14. With button control enabled, presses from a mode in 0..7 only
    ever give modes in 1..7, and from a mode in 1..7 the seventh press is
    the first that brings the mode back to where it started: the button
    walks the cycle 1, 2, ..., 7, 1 and has no way back to 0. *)
Theorem X14_button_cycle_has_length_7 (mode : Z) :
  (0 <= mode <= 7 -> forall n : nat, 1 <= Nat.iter (S n) press mode <= 7)
  /\ (1 <= mode <= 7 ->
      Nat.iter 7 press mode = mode
      /\ forall k : nat, (0 < k < 7)%nat -> Nat.iter k press mode <> mode).
Proof.
  split.
  - intros Hm n. induction n as [| n IH].
    + apply press_stays_in_range, Hm.
    + change (Nat.iter (S (S n)) press mode) with (press (Nat.iter (S n) press mode)).
      apply press_stays_in_range. lia.
  - intros Hm.
    assert (Hc : mode = 1 \/ mode = 2 \/ mode = 3 \/ mode = 4 \/ mode = 5
                 \/ mode = 6 \/ mode = 7) by lia.
    split.
    + repeat (destruct Hc as [-> | Hc]; [reflexivity |]). subst. reflexivity.
    + intros k Hk.
      assert (Hk' : (k = 1 \/ k = 2 \/ k = 3 \/ k = 4 \/ k = 5 \/ k = 6)%nat) by lia.
      repeat (destruct Hc as [-> | Hc];
              [repeat (destruct Hk' as [-> | Hk']; [vm_compute; discriminate |]);
               subst; vm_compute; discriminate |]).
      subst mode.
      repeat (destruct Hk' as [-> | Hk']; [vm_compute; discriminate |]).
      subst; vm_compute; discriminate.
Qed.

Lemma X14_witness :
  1 <= Nat.iter 3 press 0 <= 7
  /\ Nat.iter 7 press 5 = 5
  /\ Nat.iter 4 press 5 <> 5.
Proof.
  split; [| split].
  - apply (proj1 (X14_button_cycle_has_length_7 0)). lia.
  - apply (proj2 (X14_button_cycle_has_length_7 5)). lia.
  - apply (proj2 (X14_button_cycle_has_length_7 5)); lia.
Defined.

(** ** Touch level *)

(** X15. The touch loop leaves the social level either as it found it or
    at a channel index 0..4 whose delta in this pass exceeds 1900: a level
    is never taken from a pad that is not over the threshold, and a delta
    of exactly 1900 does not count. *)
Theorem X15_level_comes_from_a_channel_over_threshold (raw base : list Z) (level : Z) :
  let level' := snd (Loop.touch_update raw base level) in
  (level' = level
   \/ (0 <= level' <= 4 /\ 1900 < Loop.touch_delta raw base level'))
  /\ (forall i, 0 <= i < 5 -> Loop.touch_delta raw base i = 1900 ->
      (forall j, 0 <= j < 5 -> j <> i -> Loop.touch_delta raw base j <= 1900) ->
      level' = level).
Proof.
  cbv zeta. rewrite touch_update_level. cbv zeta. split.
  - destruct (Z.ltb_spec 1900 (Loop.touch_delta raw base 4)); [right; lia |].
    destruct (Z.ltb_spec 1900 (Loop.touch_delta raw base 3)); [right; lia |].
    destruct (Z.ltb_spec 1900 (Loop.touch_delta raw base 2)); [right; lia |].
    destruct (Z.ltb_spec 1900 (Loop.touch_delta raw base 1)); [right; lia |].
    destruct (Z.ltb_spec 1900 (Loop.touch_delta raw base 0)); [right; lia |].
    left. reflexivity.
  - intros i Hi Heq Hothers.
    assert (Hall : forall j, 0 <= j < 5 -> Loop.touch_delta raw base j <= 1900).
    { intros j Hj. destruct (Z.eq_dec j i) as [-> | Hne]; [lia | auto]. }
    pose proof (Hall 0) as H0. pose proof (Hall 1) as H1. pose proof (Hall 2) as H2.
    pose proof (Hall 3) as H3. pose proof (Hall 4) as H4.
    destruct (Z.ltb_spec 1900 (Loop.touch_delta raw base 4)); [lia |].
    destruct (Z.ltb_spec 1900 (Loop.touch_delta raw base 3)); [lia |].
    destruct (Z.ltb_spec 1900 (Loop.touch_delta raw base 2)); [lia |].
    destruct (Z.ltb_spec 1900 (Loop.touch_delta raw base 1)); [lia |].
    destruct (Z.ltb_spec 1900 (Loop.touch_delta raw base 0)); [lia |].
    reflexivity.
Qed.

Lemma X15_witness :
  snd (Loop.touch_update [0; 0; 1900; 0; 0] [0; 0; 0; 0; 0] 4) = 4.
Proof.
  apply (proj2 (X15_level_comes_from_a_channel_over_threshold
                  [0; 0; 1900; 0; 0] [0; 0; 0; 0; 0] 4) 2).
  - lia.
  - reflexivity.
  - intros j Hj Hne.
    assert (j = 0 \/ j = 1 \/ j = 3 \/ j = 4) as [-> | [-> | [-> | ->]]] by lia;
      vm_compute; discriminate.
Defined.

(** ** Start-up *)

(** X16. When at least one of the two bus lines reads high at start-up,
    the firmware switches both lines to open-drain alternate function,
    registers the control peripheral at address 0x57 over the 35-byte
    register file (writable) and the identity peripheral at 0x50 over 43
    bytes (read-only), in that order, and neither drives the LED pin nor
    waits; the effect buffer and the register file are still all zero. *)
Theorem X16_boot_registers_bus_when_a_line_is_high
    (sda scl pin_mode : bool) (touch : list Z) :
  sda || scl = true ->
  exists s,
    Boot.boot sda scl pin_mode touch
    = Some (s, Boot.configure_pins
               ++ [PinMode PIN_SDA OUT_10Mhz_AF_OD; PinMode PIN_SCL OUT_10Mhz_AF_OD;
                   SetupI2CSlave 87 35 false; SetupSecondaryI2CSlave 80 43 true])
    /\ forallb (fun e => negb (is_led_activity e))
         (Boot.configure_pins
          ++ [PinMode PIN_SDA OUT_10Mhz_AF_OD; PinMode PIN_SCL OUT_10Mhz_AF_OD;
              SetupI2CSlave 87 35 false; SetupSecondaryI2CSlave 80 43 true]) = true
    /\ led_effect_data s = repeat 0 15
    /\ i2c_registers s = repeat 0 35.
Proof.
  intros Hbus. unfold Boot.boot. rewrite Hbus. cbn [mbind option_bind].
  eexists. repeat split.
Qed.

Lemma X16_witness :
  exists s,
    Boot.boot false true false [0; 0; 0; 0; 0]
    = Some (s, Boot.configure_pins
               ++ [PinMode PIN_SDA OUT_10Mhz_AF_OD; PinMode PIN_SCL OUT_10Mhz_AF_OD;
                   SetupI2CSlave 87 35 false; SetupSecondaryI2CSlave 80 43 true])
    /\ forallb (fun e => negb (is_led_activity e))
         (Boot.configure_pins
          ++ [PinMode PIN_SDA OUT_10Mhz_AF_OD; PinMode PIN_SCL OUT_10Mhz_AF_OD;
              SetupI2CSlave 87 35 false; SetupSecondaryI2CSlave 80 43 true]) = true
    /\ led_effect_data s = repeat 0 15
    /\ i2c_registers s = repeat 0 35.
Proof.
  apply (X16_boot_registers_bus_when_a_line_is_high false true false [0; 0; 0; 0; 0]).
  reflexivity.
Defined.

(** X17. Start-up always reaches the loop, with or without a usable bus,
    in a state where: the mode is 1 with button control enabled when the
    mode jumper pin reads high, and 0 with button control disabled when it
    reads low; the touch baseline is the first reading of the pads; the
    rainbow speed is 15 and the scanner speed 245; the scanner head is on
    LED 0 going forward with its accumulator at 0; the effect buffer has
    15 bytes and the register file 35. *)
Theorem X17_boot_start_state (sda scl pin_mode : bool) (touch : list Z) :
  exists s tr,
    Boot.boot sda scl pin_mode touch = Some (s, tr)
    /\ system_mode s = (if pin_mode then 1 else 0)
    /\ button_enabled s = pin_mode
    /\ baseline s = touch
    /\ rainbow_speed s = 15 /\ knightrider_speed s = 245
    /\ knightrider_led s = 0 /\ knightrider_value s = 0
    /\ knightrider_direction s = false
    /\ prev_button s = false /\ social_level s = 0
    /\ frame_ok (led_effect_data s)
    /\ length (i2c_registers s) = I2C_REGISTERS_SIZE.
Proof.
  pose proof (write_addressable_leds_all fallback_frame ltac:(cbn; lia)) as Htr.
  change (Z.of_nat (length fallback_frame)) with 15 in Htr.
  unfold Boot.boot. destruct (sda || scl).
  - cbn [mbind option_bind]. eexists _, _. split; [reflexivity |].
    destruct pin_mode; repeat split; unfold is_u8; repeat constructor; lia.
  - change (for_range 0 5 Boot.fallback_led (led_effect_data Boot.power_on))
      with fallback_frame.
    rewrite Htr. cbn [mbind option_bind]. eexists _, _. split; [reflexivity |].
    destruct pin_mode; repeat split; unfold is_u8; repeat constructor; lia.
Qed.

(** ** What a pass leaves alone *)

Lemma render_outside_scanner ehsv tv s :
  ~ (5 <= system_mode s <= 7) ->
  knightrider_led (Loop.render ehsv tv s) = knightrider_led s
  /\ knightrider_value (Loop.render ehsv tv s) = knightrider_value s
  /\ knightrider_direction (Loop.render ehsv tv s) = knightrider_direction s.
Proof.
  intros Hmode. unfold Loop.render.
  repeat match goal with
         | |- context [match ?x with _ => _ end] => destruct x eqn:?
         end;
    try (repeat split; reflexivity); exfalso; lia.
Qed.

Lemma knightrider_step_hue color s : hue (Scanner.knightrider_step color s) = hue s.
Proof.
  unfold Scanner.knightrider_step.
  destruct (Scanner.advance _ _ _ _) as [[led value] direction]. reflexivity.
Qed.

Lemma render_outside_rainbow ehsv tv s :
  system_mode s <> 2 -> hue (Loop.render ehsv tv s) = hue s.
Proof.
  intros Hmode. unfold Loop.render.
  repeat match goal with
         | |- context [match ?x with _ => _ end] => destruct x eqn:?
         end;
    first [reflexivity | apply knightrider_step_hue | exfalso; lia].
Qed.

Lemma render_no_effect ehsv tv s :
  system_mode s <= 0 \/ 8 <= system_mode s -> Loop.render ehsv tv s = s.
Proof.
  intros Hmode. unfold Loop.render.
  repeat match goal with
         | |- context [match ?x with _ => _ end] => destruct x eqn:?
         end;
    first [reflexivity | exfalso; lia].
Qed.

(** X18. A pass of the loop never changes the touch baseline, the two
    speeds or the button enable flag (only [onWrite] does), and it records
    the button sample of this pass as the previous one. It moves the
    scanner head, its accumulator and its direction only when it ends in
    mode 5, 6 or 7, advances the hue only in mode 2, and leaves the effect
    buffer as it is when it ends in mode 0 or in a mode above 7. *)
Theorem X18_pass_leaves_configuration (ehsv : Z -> Z -> Z -> Z)
    (inp : tick_input) (s : state) :
  let s' := fst (Loop.tick ehsv inp s) in
  baseline s' = baseline s
  /\ rainbow_speed s' = rainbow_speed s
  /\ knightrider_speed s' = knightrider_speed s
  /\ button_enabled s' = button_enabled s
  /\ prev_button s' = negb (pin_button inp)
  /\ (~ (5 <= system_mode s' <= 7) ->
      knightrider_led s' = knightrider_led s
      /\ knightrider_value s' = knightrider_value s
      /\ knightrider_direction s' = knightrider_direction s)
  /\ (system_mode s' <> 2 -> hue s' = hue s)
  /\ (system_mode s' <= 0 \/ 8 <= system_mode s' ->
      led_effect_data s' = led_effect_data s).
Proof.
  intros s'. subst s'. rewrite tick_state.
  set (s1 := fst (Loop.sense inp s)). set (tv := snd (Loop.sense inp s)).
  destruct (render_keeps ehsv tv s1) as (Hm & _ & Hen & Hrs & Hks & Hb & Hp).
  assert (Hs1 : baseline s1 = baseline s /\ rainbow_speed s1 = rainbow_speed s
                /\ knightrider_speed s1 = knightrider_speed s
                /\ button_enabled s1 = button_enabled s
                /\ prev_button s1 = negb (pin_button inp)
                /\ knightrider_led s1 = knightrider_led s
                /\ knightrider_value s1 = knightrider_value s
                /\ knightrider_direction s1 = knightrider_direction s
                /\ hue s1 = hue s /\ led_effect_data s1 = led_effect_data s).
  { subst s1. rewrite sense_eq. cbv zeta. cbn. repeat split. }
  destruct Hs1 as (Hb1 & Hrs1 & Hks1 & Hen1 & Hp1 & Hl1 & Hv1 & Hd1 & Hh1 & Hbuf1).
  rewrite Hb, Hrs, Hks, Hen, Hp, Hm.
  repeat split; try congruence.
  - destruct (render_outside_scanner ehsv tv s1 H) as (-> & _ & _). exact Hl1.
  - destruct (render_outside_scanner ehsv tv s1 H) as (_ & -> & _). exact Hv1.
  - destruct (render_outside_scanner ehsv tv s1 H) as (_ & _ & ->). exact Hd1.
  - intros Hne. rewrite render_outside_rainbow by exact Hne. exact Hh1.
  - intros Hne. rewrite render_no_effect by exact Hne. exact Hbuf1.
Qed.

Lemma X18_witness :
  let s := Bus.host_write I2C_REG_MODE [3] Boot.power_on in
  let s' := fst (Loop.tick (fun _ _ _ => 0) quiet s) in
  knightrider_led s' = knightrider_led s /\ hue s' = hue s.
Proof.
  destruct (X18_pass_leaves_configuration (fun _ _ _ => 0) quiet
              (Bus.host_write I2C_REG_MODE [3] Boot.power_on))
    as (_ & _ & _ & _ & _ & Hscan & Hhue & _).
  split.
  - apply Hscan. vm_compute. intros [H _]. apply H. reflexivity.
  - apply Hhue. vm_compute. discriminate.
Defined.

(** ** The period check *)

Lemma u32_elapsed prev elapsed :
  0 <= elapsed < 4294967296 -> u32 (u32 (prev + elapsed) - prev) = elapsed.
Proof.
  intros He. unfold u32. rewrite Zminus_mod_idemp_l.
  replace (prev + elapsed - prev) with elapsed by lia. apply Z.mod_small. exact He.
Qed.

(** X19. The body of the loop runs exactly when the SysTick count has
    advanced by at least the poll interval since the pass before, measured
    modulo 2^32, so also when the counter has wrapped in between. An
    iteration that comes too early changes nothing and transmits nothing;
    one that is due runs one pass on the inputs and remembers its count. *)
Theorem X19_poll_gate_handles_wraparound (DELAY_MS_TIME : Z)
    (ehsv : Z -> Z -> Z -> Z) (inp : tick_input) (s : state) (prev elapsed : Z) :
  0 <= elapsed < 4294967296 ->
  let now := u32 (prev + elapsed) in
  let interval := Poll.poll_interval_inputs DELAY_MS_TIME in
  let ls := Poll.mkLoop s prev in
  (Poll.due DELAY_MS_TIME now prev = true <-> interval <= elapsed)
  /\ (elapsed < interval ->
      Poll.iteration DELAY_MS_TIME ehsv now inp ls = (ls, None))
  /\ (interval <= elapsed ->
      Poll.iteration DELAY_MS_TIME ehsv now inp ls
      = (Poll.mkLoop (fst (Loop.tick ehsv inp s)) now, Some (snd (Loop.tick ehsv inp s)))).
Proof.
  intros He now interval ls.
  assert (Hdue : Poll.due DELAY_MS_TIME now prev = (interval <=? elapsed)).
  { unfold Poll.due. subst now. rewrite u32_elapsed by exact He. reflexivity. }
  split; [rewrite Hdue; apply Z.leb_le |]. split.
  - intros Hlt. unfold Poll.iteration. subst ls. cbn [Poll.input_poll_previous].
    rewrite Hdue. destruct (Z.leb_spec interval elapsed); [lia | reflexivity].
  - intros Hle. unfold Poll.iteration. subst ls.
    cbn [Poll.input_poll_previous Poll.st].
    rewrite Hdue. destruct (Z.leb_spec interval elapsed); [| lia].
    destruct (Loop.tick ehsv inp s) as [s' wire]. reflexivity.
Qed.

(** The counter wraps between two passes: previous pass at 2^32 - 100,
    now 900 counts into the next round, interval 20 * 48 = 960. *)
Lemma X19_witness :
  Poll.due 48 (u32 (4294967196 + 1000)) 4294967196 = true
  /\ Poll.iteration 48 (fun _ _ _ => 0) (u32 (4294967196 + 500)) quiet
       (Poll.mkLoop Boot.power_on 4294967196)
     = (Poll.mkLoop Boot.power_on 4294967196, None).
Proof.
  split.
  - apply (X19_poll_gate_handles_wraparound 48 (fun _ _ _ => 0) quiet Boot.power_on
             4294967196 1000); [lia | vm_compute; discriminate].
  - apply (X19_poll_gate_handles_wraparound 48 (fun _ _ _ => 0) quiet Boot.power_on
             4294967196 500); [lia | vm_compute; reflexivity].
Defined.

(** ** The head byte and the rainbow *)

Lemma fade_then_ramp v :
  is_u8 v ->
  Scanner.ramp (Scanner.decay v)
  = if v <=? 10 then 50
    else if v <? 216 then v + 40
    else if v <=? 224 then v - 216
    else 255.
Proof.
  unfold is_u8, Scanner.ramp, Scanner.decay, u8. intros Hv.
  destruct (Z.ltb_spec 10 v); destruct (Z.leb_spec v 10); try lia; [| reflexivity].
  rewrite (Z.mod_small (v - 10)) by lia.
  destruct (Z.ltb_spec (v - 10) 215); destruct (Z.ltb_spec v 216);
    destruct (Z.leb_spec v 224); try lia.
  - rewrite Z.mod_small by lia. lia.
  - symmetry. apply Z.mod_unique with (q := 1); lia.
Qed.

(** X20. What one scanner step does to the byte under the head, in terms
    of the byte [v] it finds there: 50 when [v] is at most 10, [v + 40]
    when [v] is 11 to 215, 255 when [v] is 225 or more, and [v - 216]
    (a value from 0 to 8) when [v] is 216 to 224. *)
Theorem X20_scanner_step_head_byte (color : Z) (s : state) :
  frame_ok (led_effect_data s) ->
  0 <= color <= 2 ->
  0 <= knightrider_led (Scanner.knightrider_step color s) <= 4 ->
  let s' := Scanner.knightrider_step color s in
  let idx := knightrider_led s' * 3 + color in
  let v := get (led_effect_data s) idx in
  get (led_effect_data s') idx
  = if v <=? 10 then 50
    else if v <? 216 then v + 40
    else if v <=? 224 then v - 216
    else 255.
Proof.
  intros Hok Hcolor Hled s' idx v. subst s'.
  destruct Hok as [Hlen Hall]. unfold LED_EFFECT_DATA_SIZE in Hlen.
  assert (Hidx : 0 <= idx < 15) by (subst idx; lia).
  rewrite knightrider_step_leds. fold idx. unfold Scanner.ramp_head. fold idx.
  rewrite get_set_same
    by (rewrite decay_all_map by exact Hlen; rewrite length_map, Hlen; lia).
  rewrite decay_all_map by exact Hlen. rewrite get_map by lia. fold v.
  apply fade_then_ramp. subst v. unfold get.
  destruct (lookup_lt_is_Some_2 (led_effect_data s) (Z.to_nat idx) ltac:(lia))
    as [x Hx]. rewrite Hx. cbn [default].
  rewrite Forall_forall in Hall. apply Hall. apply list_elem_of_lookup. eauto.
Qed.

Lemma X20_witness :
  let s := with_speed (scan [(1, 255); (1, 255); (1, 255)] Boot.power_on) 255 in
  let s' := Scanner.knightrider_step 1 s in
  let idx := knightrider_led s' * 3 + 1 in
  let v := get (led_effect_data s) idx in
  get (led_effect_data s') idx
  = if v <=? 10 then 50
    else if v <? 216 then v + 40
    else if v <=? 224 then v - 216
    else 255.
Proof.
  apply (X20_scanner_step_head_byte 1
           (with_speed (scan [(1, 255); (1, 255); (1, 255)] Boot.power_on) 255)).
  - split; [reflexivity |]. vm_compute. repeat constructor; discriminate.
  - lia.
  - vm_compute. split; discriminate.
Defined.

(** X21. Mode 2 on a 15-byte buffer: LED [i] gets the colour
    [EHSVtoHEX(hue + i * rainbow_speed, 240, 128)], its bits 8..15 as
    green, bits 16..23 as red and bits 0..7 as blue, and the hue moves on
    by one, from 255 back to 0. *)
Theorem X21_rainbow_frame (ehsv : Z -> Z -> Z -> Z) (tv : list Z) (s : state) :
  system_mode s = 2 ->
  length (led_effect_data s) = LED_EFFECT_DATA_SIZE ->
  let s' := Loop.render ehsv tv s in
  (forall i, 0 <= i < 5 ->
     let color := ehsv (hue s + i * rainbow_speed s) 240 128 in
     get (led_effect_data s') (i * 3 + GREEN) = Z.land (Z.shiftr color 8) 255
     /\ get (led_effect_data s') (i * 3 + RED) = Z.land (Z.shiftr color 16) 255
     /\ get (led_effect_data s') (i * 3 + BLUE) = Z.land (Z.shiftr color 0) 255)
  /\ hue s' = (hue s + 1) mod 256.
Proof.
  intros Hmode Hlen s'. subst s'. unfold Loop.render. rewrite Hmode.
  cbn [Loop.with_leds led_effect_data hue]. split; [| reflexivity].
  intros i Hi. unfold LED_EFFECT_DATA_SIZE in Hlen.
  destruct (led_effect_data s) as [| z0 l]; [discriminate |]. explode l Hlen.
  assert (Hc : i = 0 \/ i = 1 \/ i = 2 \/ i = 3 \/ i = 4) by lia.
  destruct Hc as [-> | [-> | [-> | [-> | ->]]]]; repeat split; reflexivity.
Qed.

Lemma X21_witness :
  let s := Bus.host_write I2C_REG_MODE [2] Boot.power_on in
  hue (Loop.render (fun h _ _ => h) [0; 0; 0; 0; 0] s) = (hue s + 1) mod 256.
Proof.
  apply (X21_rainbow_frame (fun h _ _ => h) [0; 0; 0; 0; 0]
           (Bus.host_write I2C_REG_MODE [2] Boot.power_on)); reflexivity.
Defined.
